(** * auto_buy.py: a shallow embedding of the ticket-training purchase bot

    The Python program drives a browser page through Playwright, reads a
    captcha with PIL and pytesseract, and asks the operator on stdin when that
    fails.  Python values are modelled as follows.

    - [str] is a list of Unicode code points ([pystr]); string literals of the
      source are written [py "..."] and decoded from their UTF-8 bytes.
    - The Unicode character database behind [str.isdigit], [str.isalnum] and
      [str.strip] is written out on the ASCII range and is a member of the
      class [Unicode] beyond it.
    - Every call into Playwright, PIL's file functions, pytesseract, [input]
      and [time.sleep] is an event [pageE] answered by an abstract [Driver];
      a call either returns a value or raises.  All exceptions of the model
      are instances of Python's [Exception], which is what the library calls
      raise; asynchronous interrupts are outside the model.
    - A Python function becomes a computation [M A]: it takes the driver state
      and gives back a result, the next driver state and the calls it made.
    - [log] prints to the standard output, and the print is taken to return;
      a closed pipe or a text the console cannot encode is outside the model.
    - Bounding boxes hold floats; they are taken as rationals, and nothing
      proved below depends on them.

    Every function of the flow is embedded, and [run] over the calls on the
    browser and the context; [parse_args] and the [__main__] block are not. *)

From Stdlib Require Import List ZArith NArith QArith String Ascii Bool Arith Lia.
From Stdlib Require Import Permutation.
Import ListNotations.
Close Scope Q_scope.
Open Scope list_scope.

Set Implicit Arguments.

(** ** Python strings *)

Definition pystr := list N.

(** UTF-8 decoding of the bytes of a source literal. *)
Fixpoint utf8_go (bs : list N) (need : nat) (acc : N) : pystr :=
  match bs with
  | [] => []
  | b :: r =>
      match need with
      | O =>
          if (b <? 128)%N then b :: utf8_go r 0 0%N
          else if (b <? 224)%N then utf8_go r 1 (b - 192)%N
          else if (b <? 240)%N then utf8_go r 2 (b - 224)%N
          else utf8_go r 3 (b - 240)%N
      | S O => (acc * 64 + b mod 64)%N :: utf8_go r 0 0%N
      | S n => utf8_go r n (acc * 64 + b mod 64)%N
      end
  end.

Definition py (s : string) : pystr :=
  utf8_go (map N_of_ascii (list_ascii_of_string s)) 0 0%N.
Arguments py : simpl never.

Definition str_eqb (a b : pystr) : bool :=
  if list_eq_dec N.eq_dec a b then true else false.

(** [bool(s)] for a string: non-empty. *)
Definition truthy (s : pystr) : bool :=
  match s with [] => false | _ :: _ => true end.

(** [a < b], [a > b] on [str]: lexicographic on code points. *)
Fixpoint str_compare (a b : pystr) : comparison :=
  match a, b with
  | [], [] => Eq
  | [], _ :: _ => Lt
  | _ :: _, [] => Gt
  | x :: a', y :: b' =>
      match (x ?= y)%N with
      | Eq => str_compare a' b'
      | c => c
      end
  end.

(** [needle in hay] on [str]. *)
Fixpoint starts_with (needle hay : pystr) : bool :=
  match needle, hay with
  | [], _ => true
  | _ :: _, [] => false
  | x :: n', y :: h' => (x =? y)%N && starts_with n' h'
  end.

Fixpoint str_in (needle hay : pystr) : bool :=
  starts_with needle hay ||
  match hay with
  | [] => false
  | _ :: h' => str_in needle h'
  end.

(** The Unicode character database outside ASCII. *)
Class Unicode := {
  unicode_isdigit : N -> bool;
  unicode_isalnum : N -> bool;
  unicode_isspace : N -> bool
}.

Section Strings.
Context {U : Unicode}.

Definition ascii_digit (c : N) : bool := (48 <=? c)%N && (c <=? 57)%N.
Definition ascii_alpha (c : N) : bool :=
  ((65 <=? c)%N && (c <=? 90)%N) || ((97 <=? c)%N && (c <=? 122)%N).
Definition ascii_space (c : N) : bool :=
  ((9 <=? c)%N && (c <=? 13)%N) || ((28 <=? c)%N && (c <=? 32)%N).

Definition isdigit (c : N) : bool :=
  if (c <? 128)%N then ascii_digit c else unicode_isdigit c.
Definition isalnum (c : N) : bool :=
  if (c <? 128)%N then ascii_digit c || ascii_alpha c else unicode_isalnum c.
Definition isspace (c : N) : bool :=
  if (c <? 128)%N then ascii_space c else unicode_isspace c.

(** [s.strip()] *)
Fixpoint lstrip (s : pystr) : pystr :=
  match s with
  | [] => []
  | c :: r => if isspace c then lstrip r else s
  end.
Definition strip (s : pystr) : pystr := rev (lstrip (rev (lstrip s))).

(** [def normalize_digits(value)]:
    ["".join(ch for ch in value if ch.isdigit())] *)
Definition normalize_digits (value : pystr) : pystr := filter isdigit value.

(** ["".join(ch for ch in raw if ch.isalnum())] *)
Definition keep_alnum (raw : pystr) : pystr := filter isalnum raw.

End Strings.

(** [str(n)] for an [int]. *)
Definition digit_char (d : N) : N := (48 + d)%N.

Fixpoint str_of_pos_fuel (fuel : nat) (n : N) (acc : pystr) : pystr :=
  match fuel with
  | O => acc
  | S f =>
      let acc' := digit_char (n mod 10) :: acc in
      if (n / 10 =? 0)%N then acc' else str_of_pos_fuel f (n / 10)%N acc'
  end.

Definition str_of_N (n : N) : pystr := str_of_pos_fuel (S (N.to_nat (N.log2 n))) n [].

Definition str_of_int (z : Z) : pystr :=
  if (z <? 0)%Z then 45%N :: str_of_N (Z.to_N (- z)) else str_of_N (Z.to_N z).

(** ** [max(candidates, key=lambda s: (len(s), s), default="")] *)

(** [ka > kb] on the tuples [(len(s), s)]. *)
Definition key_gt (a b : pystr) : bool :=
  match Nat.compare (List.length a) (List.length b) with
  | Gt => true
  | Lt => false
  | Eq => match str_compare a b with Gt => true | _ => false end
  end.

(** [max] keeps the first item whose key no later item exceeds. *)
Fixpoint max_from (best : pystr) (rest : list pystr) : pystr :=
  match rest with
  | [] => best
  | x :: r => max_from (if key_gt x best then x else best) r
  end.

Definition select_candidate (candidates : list pystr) : pystr :=
  match candidates with
  | [] => py ""
  | x :: r => max_from x r
  end.

(** ** The page driver *)

(** Exceptions raised by the library calls; all derive from [Exception]. *)
Inductive exn := TimeoutError | Error | OtherException.

Inductive result (A : Type) :=
| Ok (a : A)
| Raise (e : exn).
Arguments Raise {A} e.

(** Playwright locators are descriptions; building one never touches the page. *)
Inductive locator :=
| GetByRole (role : pystr) (name : option pystr)
| GetByText (text : pystr) (exact : bool)
| GetByLabel (text : pystr) (exact : bool)
| GetByPlaceholder (text : pystr)
| Locator (selector : pystr)
| SubLocator (parent : locator) (selector : pystr)
| FilterHasText (l : locator) (has_text : option pystr)
| First (l : locator)
| Nth (l : locator) (index : nat).

(** A bounding box; Python's floats are taken as rationals. *)
Record box := { box_x : Q; box_y : Q; box_width : Q; box_height : Q }.

(** A mode "L" (or "1") image as rows of pixel intensities. *)
Definition gray := list (list Z).

(** PIL and pytesseract: whether the imports of lines 8-13 succeeded, decoded
    pictures, and the PIL functions that are not written out here. *)
Class Libs := {
  ocr_imported : bool;
  picture : Type;
  convert_L : picture -> gray;
  crop : picture -> Z * Z * Z * Z -> picture;
  rotate : gray -> Z -> bool -> Z -> gray
}.

(** [ImageOps.invert] on a mode "L" image. *)
Definition invert (img : gray) : gray := map (map (fun p => 255 - p)%Z) img.

(** [img.point(lut, mode="1")] *)
Definition point (img : gray) (lut : Z -> Z) : gray := map (map lut) img.

Section Events.
Context {L : Libs}.

(** The calls the program makes to its collaborators, by result type. *)
Inductive pageE : Type -> Type :=
| WaitFor (l : locator) (state : pystr) (timeout : Z) : pageE unit
| Click (l : locator) (timeout : option Z) : pageE unit
| Check (l : locator) (timeout : option Z) : pageE unit
| IsChecked (l : locator) : pageE bool
| IsDisabled (l : locator) : pageE bool
| ScrollIntoView (l : locator) : pageE unit
| Fill (l : locator) (value : pystr) (timeout : option Z) : pageE unit
| Press (l : locator) (key : pystr) : pageE unit
| GetAttribute (l : locator) (name : pystr) : pageE (option pystr)
| InnerText (l : locator) : pageE pystr
| Count (l : locator) : pageE nat
| SelectOption (l : locator) (by_label : bool) (value : pystr) : pageE unit
| BoundingBox (l : locator) : pageE (option box)
| LocatorScreenshot (l : locator) (path : pystr) : pageE unit
| PageScreenshot (path : pystr) (full_page : bool) : pageE unit
| Content : pageE pystr
| Evaluate (script : pystr) (arg : option locator) : pageE unit
| WaitForTimeout (ms : Z) : pageE unit
| Sleep (seconds : Q) : pageE unit
| Input (prompt : pystr) : pageE pystr
| WriteFile (path content : pystr) : pageE unit
| ImageOpen (path : pystr) : pageE picture
| ImageSave (img : gray) (path : pystr) : pageE unit
| ImageToString (img : gray) (config : pystr) : pageE pystr.

(** A call together with its outcome. *)
Inductive event :=
| Ev (A : Type) (c : pageE A) (r : result A).

(** The collaborators: any state, any answer to any call. *)
Class Driver := {
  world : Type;
  exec : forall A, pageE A -> world -> result A * world
}.

Context {D : Driver}.

(** ** Computations *)

Definition M (A : Type) := world -> result A * world * list event.

Definition ret A (a : A) : M A := fun w => (Ok a, w, []).

Definition bind A B (m : M A) (k : A -> M B) : M B :=
  fun w =>
    match m w with
    | (Ok a, w1, e1) =>
        match k a w1 with
        | (r, w2, e2) => (r, w2, e1 ++ e2)
        end
    | (Raise e, w1, e1) => (Raise e, w1, e1)
    end.

Definition call A (c : pageE A) : M A :=
  fun w => match exec c w with (r, w1) => (r, w1, [Ev c r]) end.

(** [try: m  except Exception: h] *)
Definition try_catch A (m h : M A) : M A :=
  fun w =>
    match m w with
    | (Ok a, w1, e1) => (Ok a, w1, e1)
    | (Raise _, w1, e1) =>
        match h w1 with
        | (r, w2, e2) => (r, w2, e1 ++ e2)
        end
    end.

(** [log(msg)] prints.  The print is taken to return: a standard output
    that cannot take the text is outside the model. *)
Definition log (msg : pystr) : M unit := ret tt.

End Events.

Declare Scope py_scope.
Delimit Scope py_scope with py.
Notation "x <- m ;; k" := (bind m (fun x => k))
  (at level 61, m at next level, right associativity) : py_scope.
Notation "m ;; k" := (bind m (fun _ => k))
  (at level 61, right associativity) : py_scope.
Notation "'try' m 'except' h" := (try_catch m h)
  (at level 60, m at level 61, h at level 61) : py_scope.
Open Scope py_scope.

(** How a loop body ends: fall through to the next item, [break], or
    [return] from the enclosing function. *)
Inductive flow := Next | Break | Return.

Section Program.
Context {U : Unicode} {L : Libs} {D : Driver}.

(** [for x in xs: body]; [Next] at the end means the list was exhausted, which
    is when a [for ... else] runs its [else]. *)
Fixpoint for_each X (xs : list X) (body : X -> M flow) : M flow :=
  match xs with
  | [] => ret Next
  | x :: r =>
      f <- body x ;;
      match f with
      | Next => for_each r body
      | Break => ret Break
      | Return => ret Return
      end
  end.

(** A list comprehension whose element expression makes calls. *)
Fixpoint map_m X Y (f : X -> M Y) (xs : list X) : M (list Y) :=
  match xs with
  | [] => ret []
  | x :: r => y <- f x ;; ys <- map_m f r ;; ret (y :: ys)
  end.

(** A loop that only updates its local variables [s]. *)
Fixpoint fold_m X S (f : S -> X -> M S) (xs : list X) (s : S) : M S :=
  match xs with
  | [] => ret s
  | x :: r => s' <- f s x ;; fold_m f r s'
  end.

(** [for x in xs: if hit(x): found = x; break] *)
Fixpoint find_m X (hit : X -> M bool) (xs : list X) : M (option X) :=
  match xs with
  | [] => ret None
  | x :: r => b <- hit x ;; if b then ret (Some x) else find_m hit r
  end.

(** [loc.all()]: one [count], then the indexed locators. *)
Definition all (l : locator) : M (list locator) :=
  n <- call (Count l) ;; ret (map (Nth l) (seq 0 n)).

(** [def save_debug(page, name)] *)
Definition save_debug (name : pystr) : M unit :=
  (try call (PageScreenshot (name ++ py ".png") true) except ret tt) ;;
  try (html <- call Content ;; call (WriteFile (name ++ py ".html") html))
  except ret tt.

(** [def click_if_visible(page, text, timeout_ms)] *)
Definition click_if_visible (text : pystr) (timeout_ms : Z) : M bool :=
  try (let locator := GetByRole (py "button") (Some text) in
       call (WaitFor (First locator) (py "visible") timeout_ms) ;;
       call (Click (First locator) None) ;;
       ret true)
  except
    (try (call (Click (First (GetByText text true)) (Some timeout_ms)) ;;
          ret true)
     except ret false).

(** [def agree_terms_if_present(page)] *)
Definition agree_terms_if_present : M unit :=
  f <- (try (let cb := First (GetByRole (py "checkbox") None) in
             call (WaitFor cb (py "attached") 500) ;;
             checked <- (try call (IsChecked cb) except ret false) ;;
             if negb checked then
               call (ScrollIntoView cb) ;;
               call (Check cb (Some 800%Z)) ;;
               log (py "已勾選條款核取方塊 (role=checkbox)") ;;
               ret Return
             else ret Next)
        except ret Next) ;;
  match f with
  | Return => ret tt
  | _ =>
      g <- for_each [py "我已詳細閱讀且同意"; py "會員服務條款"; py "同意"]
             (fun label_text =>
                try (let el := GetByLabel label_text false in
                     call (Check (First el) (Some 800%Z)) ;;
                     log (py "已勾選條款核取方塊 (by label)") ;;
                     ret Return)
                except ret Next) ;;
      match g with
      | Return => ret tt
      | _ =>
          try (let consent := First (GetByText (py "會員服務條款") false) in
               call (ScrollIntoView consent) ;;
               call (Check (First (SubLocator consent
                       (py "xpath=preceding::input[@type='checkbox'][1]")))
                       (Some 800%Z)) ;;
               log (py "已勾選條款核取方塊 (fallback preceding checkbox)"))
          except ret tt
      end
  end.

(** [def dismiss_adblock_and_disclaimers(page, timeout_ms)] *)
Definition dismiss_adblock_and_disclaimers (timeout_ms : Z) : M unit :=
  log (py "嘗試關閉提示/覆蓋層…") ;;
  click_if_visible (py "我已閱讀並了解") 1000 ;;
  click_if_visible (py "確認") 1000 ;;
  click_if_visible (py "重新整理") 500 ;;
  ret tt.

(** [input_type in ("number", None) or (placeholder and "秒" in placeholder)] *)
Definition is_seconds_input (input_type placeholder : option pystr) : bool :=
  match input_type with
  | None => true
  | Some t => str_eqb t (py "number")
  end
  || match placeholder with
     | Some p => truthy p && str_in (py "秒") p
     | None => false
     end.

(** [def start_countdown_and_buy(page, seconds, timeout_ms)] *)
Definition start_countdown_and_buy (seconds timeout_ms : Z) : M unit :=
  try (log (py "尋找倒數輸入框並嘗試填入秒數…") ;;
       inputs <- all (Locator (py "input")) ;;
       for_each inputs
         (fun input_box =>
            placeholder <- (try call (GetAttribute input_box (py "placeholder"))
                            except ret None) ;;
            input_type <- call (GetAttribute input_box (py "type")) ;;
            if is_seconds_input input_type placeholder then
              call (Fill input_box (str_of_int seconds) None) ;;
              ret Break
            else ret Next) ;;
       clicked <- click_if_visible (py "開始倒數計時") 1000 ;;
       (if clicked then
          log (py "已點擊開始倒數，等待 " ++ str_of_int seconds ++ py " 秒…") ;;
          call (Sleep (inject_Z (Z.max 0 (seconds - 1)))) ;;
          call (Sleep (12 # 10))
        else ret tt) ;;
       log (py "嘗試點擊『立即購票/立即訂購』…") ;;
       bought <- click_if_visible (py "立即購票") 1000 ;;
       if negb bought then
         click_if_visible (py "立即訂購") 2000 ;; ret tt
       else ret tt)
  except ret tt.

(** [def wait_for_user_prep_and_countdown(seconds)] *)
Definition wait_for_user_prep_and_countdown (seconds : Z) : M unit :=
  log (py "請在瀏覽器完成步驟 1-4：勾選『我已閱讀並了解』→ 點『確認』→ 輸入秒數 → 點『開始倒數計時』。") ;;
  call (Input (py "[auto-buy] 完成後按 Enter 繼續，我會等倒數秒數再自動購票… ")) ;;
  call (Sleep (inject_Z (Z.max 0 seconds))).

(** [def double_click_buy(page)] *)
Definition double_click_buy : M unit :=
  log (py "步驟 5-6：嘗試連點兩次『立即購票/立即訂購』…") ;;
  for_each (seq 0 2)
    (fun _ =>
       clicked <- click_if_visible (py "立即購票") 1200 ;;
       (if negb clicked then
          click_if_visible (py "立即訂購") 1200 ;; ret tt
        else ret tt) ;;
       call (WaitForTimeout 400) ;;
       ret Next) ;;
  ret tt.

(** Step 7 of [select_price_and_quantity]: the seat of the wanted price. *)
Definition select_price (price_text : pystr) (timeout_ms : Z) : M unit :=
  if truthy price_text then
    let wanted_digits := normalize_digits price_text in
    try (let header := FilterHasText (Locator (py "h4")) (Some price_text) in
         n <- call (Count header) ;;
         if (0 <? n)%nat then
           call (ScrollIntoView (First header)) ;;
           let category :=
             SubLocator (First header) (py "xpath=ancestor::*[@class='category'][1]") in
           let seat_first := First (SubLocator category (py ".seat-item")) in
           call (ScrollIntoView seat_first) ;;
           call (Click seat_first (Some timeout_ms)) ;;
           log (py "已在價位區塊內點擊第一筆座位項目")
         else
           let any_price := First (GetByText price_text false) in
           call (ScrollIntoView any_price) ;;
           let parent :=
             SubLocator any_price (py "xpath=ancestor::*[self::div or self::li][1]") in
           try (call (Click (First (SubLocator parent (py ".seat-item")))
                        (Some timeout_ms)) ;;
                log (py "已點擊相鄰座位項目"))
           except (call (Click any_price (Some timeout_ms)) ;;
                   log (py "已直接點擊含價格文字元素")))
    except
      (if truthy wanted_digits then
         call (Click (First (Locator (py ":text-matches('.*" ++ wanted_digits
                                        ++ py ".*')")))
                 (Some timeout_ms)) ;;
         log (py "已點擊包含目標數字的元素")
       else ret tt)
  else ret tt.

(** [target in (values or []) or target in texts] *)
Definition offers (target : pystr) (values : list (option pystr))
    (texts : list pystr) : bool :=
  existsb (fun v => match v with Some s => str_eqb target s | None => false end)
    values
  || existsb (str_eqb target) texts.

(** Step 8 of [select_price_and_quantity]: the quantity dropdown. *)
Definition select_quantity (quantity : Z) : M unit :=
  if (negb (quantity =? 0)%Z && (quantity >? 0)%Z) then
    try (selects <- all (Locator (py "select")) ;;
         for_each selects
           (fun sel =>
              options <- all (SubLocator sel (py "option")) ;;
              values <- map_m (fun opt => call (GetAttribute opt (py "value")))
                          options ;;
              texts <- map_m (fun opt =>
                                try (t <- call (InnerText opt) ;; ret (strip t))
                                except ret (py ""))
                         options ;;
              let target := str_of_int quantity in
              if offers target values texts then
                (try (call (SelectOption sel false target) ;;
                      log (py "已透過 value 選擇張數"))
                 except (call (SelectOption sel true target) ;;
                         log (py "已透過 label 選擇張數"))) ;;
                ret Break
              else ret Next) ;;
         ret tt)
    except ret tt
  else ret tt.

(** [def select_price_and_quantity(page, price_text, quantity, timeout_ms)] *)
Definition select_price_and_quantity (price_text : pystr) (quantity timeout_ms : Z)
    : M unit :=
  log (py "步驟 7：嘗試依價格選位 price='" ++ price_text ++ py "'…") ;;
  select_price price_text timeout_ms ;;
  call (WaitForTimeout 300) ;;
  log (py "步驟 8：嘗試選擇張數 quantity=" ++ str_of_int quantity ++ py "…") ;;
  select_quantity quantity.

(** ** The captcha *)

(** [max(a, b)] on numbers: [b] when it is greater, else [a]. *)
Definition qmax (a b : Q) : Q := if Qle_bool b a then a else b.

(** [int(x)] on a float: truncation toward zero. *)
Definition py_int (x : Q) : Z := Z.quot (Qnum x) (Zpos (Qden x)).

(** The four descriptions of the captcha field: [input_candidates] of lines
    245-250, written out again at lines 363-368. *)
Definition input_candidates : list locator :=
  [ GetByPlaceholder (py "驗證碼");
    Locator (py "input[name*='captcha' i]");
    Locator (py "input[aria-label*='驗證碼']");
    GetByLabel (py "驗證碼") false ].

(** Lines 264-285: the image whose centre is nearest to the centre of the
    field, else any image whose alt or title mentions the captcha. *)
Definition nearest_image (target_input : option locator) : M locator :=
  captcha_img <-
    match target_input with
    | Some ti =>
        call (ScrollIntoView ti) ;;
        inp_box <- call (BoundingBox ti) ;;
        imgs <- all (Locator (py "img")) ;;
        st <- fold_m
                (fun (st : option Q * option locator) img_loc =>
                   b <- (try call (BoundingBox img_loc) except ret None) ;;
                   match b, inp_box with
                   | Some b, Some ib =>
                       let dx := (box_x b + box_width b / 2
                                  - (box_x ib + box_width ib / 2))%Q in
                       let dy := (box_y b + box_height b / 2
                                  - (box_y ib + box_height ib / 2))%Q in
                       let d2 := (dx * dx + dy * dy)%Q in
                       match fst st with
                       | None => ret (Some d2, Some img_loc)
                       | Some min_d =>
                           if negb (Qle_bool min_d d2)
                           then ret (Some d2, Some img_loc)
                           else ret st
                       end
                   | _, _ => ret st
                   end)
                imgs (None, None) ;;
        ret (snd st)
    | None => ret None
    end ;;
  match captcha_img with
  | Some img => ret img
  | None => ret (First (Locator (py "img[alt*='驗證'], img[title*='驗證']")))
  end.

(** [lambda p, t=th: 255 if p > t else 0] *)
Definition binarize (th : Z) (p : Z) : Z := if (p >? th)%Z then 255%Z else 0%Z.

Definition angles : list Z := [-6; -4; -2; 0; 2; 4; 6]%Z.
Definition thresholds : list Z := [115; 160]%Z.

(** Lines 331-343: the candidates read from the rotated, inverted and
    binarized variants of [base]. *)
Definition ocr_candidates (base : gray) : M (list pystr) :=
  fold_m
    (fun candidates angle =>
       let img_rot := rotate base angle true 255 in
       let inv := invert img_rot in
       fold_m
         (fun candidates th =>
            let bw := point inv (binarize th) in
            call (ImageSave bw (py "_captcha_crop.png")) ;;
            raw <- call (ImageToString bw (py "--psm 7")) ;;
            let text := keep_alnum raw in
            ret (candidates ++ [text]))
         thresholds candidates)
    angles [].

(** Lines 235-355 of [fill_captcha_and_confirm]: the value of [user_code]
    when the OCR attempt is over. *)
Definition ocr_user_code : M pystr :=
  if ocr_imported then
    try (log (py "OCR 啟用：pytesseract 與 PIL 可用，嘗試定位驗證碼圖片…") ;;
         (try call (PageScreenshot (py "_before_captcha.png") true) except ret tt) ;;
         found <- find_m
                    (fun cand =>
                       try (call (WaitFor (First cand) (py "visible") 800) ;; ret true)
                       except ret false)
                    input_candidates ;;
         let target_input := option_map First found in
         match target_input with
         | None => log (py "找不到驗證碼輸入框，跳過 OCR")
         | Some _ => ret tt
         end ;;
         captcha_img <- (try (img <- nearest_image target_input ;; ret (Some img))
                         except ret None) ;;
         crop_by_box <-
           match captcha_img with
           | Some ci =>
               try (call (ScrollIntoView ci) ;;
                    call (LocatorScreenshot ci (py "_captcha_crop.png")) ;;
                    if ocr_imported then
                      bw_src <- call (ImageOpen (py "_captcha_crop.png")) ;;
                      let base := convert_L bw_src in
                      ret None
                    else call (BoundingBox ci))
               except call (BoundingBox ci)
           | None => ret None
           end ;;
         crop_by_box <-
           match crop_by_box, target_input with
           | None, Some ti =>
               try (ib <- call (BoundingBox ti) ;;
                    match ib with
                    | Some ib =>
                        log (py "使用輸入框附近區域作為驗證碼截圖後備方案") ;;
                        ret (Some {| box_x := qmax 0 (box_x ib - 220);
                                     box_y := qmax 0 (box_y ib - 10);
                                     box_width := 200;
                                     box_height :=
                                       inject_Z (Z.max 40 (py_int (box_height ib))) |})
                    | None => ret None
                    end)
               except ret None
           | _, _ => ret crop_by_box
           end ;;
         user_code <-
           match crop_by_box with
           | Some cb =>
               let tmp_path := py "_captcha_full.png" in
               call (PageScreenshot tmp_path true) ;;
               im <- call (ImageOpen tmp_path) ;;
               let left := Z.max 0 (py_int (box_x cb) - 2) in
               let top := Z.max 0 (py_int (box_y cb) - 2) in
               let right := (py_int (box_x cb + box_width cb) + 2)%Z in
               let bottom := (py_int (box_y cb) + py_int (box_height cb) + 2)%Z in
               let base := convert_L (crop im (left, top, right, bottom)) in
               candidates <- ocr_candidates base ;;
               let user_code := select_candidate candidates in
               (if truthy user_code
                then log (py "OCR 取得驗證碼：" ++ user_code)
                else log (py "OCR 未辨識出文字，將回退為人工輸入")) ;;
               ret user_code
           | None =>
               log (py "找不到可截圖的驗證碼區域 (圖片或備援區域)") ;;
               ret (py "")
           end ;;
         match captcha_img with
         | None => log (py "找不到驗證碼圖片節點")
         | Some _ => ret tt
         end ;;
         ret user_code)
    except (log (py "OCR 嘗試發生例外，將回退為人工輸入") ;; ret (py ""))
  else ret (py "").

(** Lines 357-358: the operator is asked when OCR gave nothing. *)
Definition ask_operator (user_code : pystr) : M pystr :=
  if negb (truthy user_code) then
    typed <- call (Input (py "[auto-buy] 請輸入頁面上的驗證碼後按 Enter： ")) ;;
    ret (strip typed)
  else ret user_code.

(** Lines 359-385: the field that received [user_code], if any. *)
Definition fill_captcha (user_code : pystr) : M (option locator) :=
  if truthy user_code then
    found <- find_m
               (fun locator =>
                  try (let target := First locator in
                       call (ScrollIntoView target) ;;
                       call (Fill target user_code (Some 800%Z)) ;;
                       ret true)
                  except ret false)
               input_candidates ;;
    match found with
    | Some locator => ret (Some (First locator))
    | None =>
        try (let target := First (Locator (py "input")) in
             call (ScrollIntoView target) ;;
             call (Fill target user_code (Some 800%Z)) ;;
             ret (Some target))
        except ret None
    end
  else ret None.

Definition confirm_labels : list pystr :=
  [ py "確認張數"; py "確認數量"; py "確認"; py "確定"; py "送出"; py "下一步";
    py "下一步驟" ].

Definition keyword_xpath : pystr :=
  py "xpath=|//*[self::button or self::a or self::input][contains(normalize-space(.),'確認張數') or contains(normalize-space(.),'確認') or contains(normalize-space(.),'確定') or contains(normalize-space(.),'送出') or contains(normalize-space(.),'下一步')]".

(** Lines 400-445: the confirmation labels, and in the [else] of the loop
    the text selector and then the keyword scan. *)
Definition click_confirm : M unit :=
  f <- for_each confirm_labels
         (fun label =>
            clicked <- click_if_visible label 1000 ;;
            if clicked then log (py "已點擊：" ++ label) ;; ret Break
            else ret Next) ;;
  match f with
  | Next =>
      try (let el := First (GetByText (py "確認張數") false) in
           call (ScrollIntoView el) ;;
           call (Click el (Some 800%Z)) ;;
           log (py "已以文字選擇器點擊『確認張數』"))
      except
        (try (call (Evaluate (py "window.scrollTo(0, document.body.scrollHeight)")
                      None) ;;
              call (WaitForTimeout 200) ;;
              let candidates :=
                FilterHasText
                  (Locator (py "button, a, input[type='submit'], input[type='button']"))
                  None in
              let btn := First (Locator keyword_xpath) in
              call (ScrollIntoView btn) ;;
              call (Click btn (Some 1200%Z)) ;;
              log (py "已點擊關鍵字匹配之按鈕/連結/輸入元件"))
         except ret tt)
  | _ => ret tt
  end.

(** Lines 454-477: submitting the first form. *)
Definition submit_form : M unit :=
  try (log (py "嘗試以程式提交表單 (fallback)…") ;;
       let form := First (Locator (py "form")) in
       call (ScrollIntoView form) ;;
       try (let submit_btn :=
              First (SubLocator form (py "button[type='submit'], input[type='submit']")) in
            call (Click submit_btn (Some 800%Z)) ;;
            log (py "已按下表單提交按鈕"))
       except
         (call (Evaluate (py "(f)=>{try{f.requestSubmit?f.requestSubmit():f.submit()}catch(e){}}")
                  (Some form)) ;;
          log (py "已以程式方式提交表單")))
  except
    (try (call (PageScreenshot (py "step10_confirm_not_found.png") true) ;;
          log (py "未找到確認按鈕，已截圖 step10_confirm_not_found.png"))
     except ret tt).

(** Lines 387-477: step 10. *)
Definition confirm (captcha_focused : option locator) : M unit :=
  log (py "步驟 10：嘗試點擊『確認張數/確認/確定/送出』…") ;;
  agree_terms_if_present ;;
  (try match captcha_focused with
       | Some field =>
           call (Press field (py "Enter")) ;;
           call (WaitForTimeout 400) ;;
           log (py "已在驗證碼欄位按下 Enter")
       | None => ret tt
       end
   except ret tt) ;;
  click_confirm ;;
  (try (save_debug (py "step10_confirm_not_found") ;;
        log (py "若仍未前進，已保存 step10_confirm_not_found.(png|html)"))
   except ret tt) ;;
  submit_form.

(** [def fill_captcha_and_confirm(page, timeout_ms)] *)
Definition fill_captcha_and_confirm (timeout_ms : Z) : M unit :=
  log (py "步驟 9：請查看頁面驗證碼…") ;;
  user_code <- ocr_user_code ;;
  user_code <- ask_operator user_code ;;
  captcha_focused <- fill_captcha user_code ;;
  confirm captcha_focused.

(** ** The generic advance loop *)

Definition common_next_labels : list pystr :=
  [ py "下一步"; py "下一步驟"; py "下一頁"; py "我同意"; py "我已閱讀並同意"; py "確認";
    py "確定"; py "送出"; py "開始購票"; py "同意並繼續" ].

Definition action_labels : list pystr :=
  [ py "加入購物車"; py "立即結帳"; py "下一步"; py "下一步驟"; py "我同意";
    py "我已閱讀並同意"; py "確認"; py "確定"; py "送出"; py "前往下一步";
    py "同意並繼續"; py "我要購票" ].

Definition success_texts : list pystr :=
  [ py "訂單建立"; py "購票完成"; py "已完成"; py "本次最佳紀錄" ].

(** [any(s in body_text for s in success_texts)] *)
Definition has_success_marker (body_text : pystr) : bool :=
  existsb (fun s => str_in s body_text) success_texts.

(** [not disabled and value and value not in ("", "0", "-1")] *)
Definition selectable (disabled : bool) (value : option pystr) : bool :=
  negb disabled &&
  match value with
  | Some v =>
      truthy v
      && negb (existsb (str_eqb v) [py ""; py "0"; py "-1"])
  | None => false
  end.

(** Lines 499-520: the first usable option of every enabled select. *)
Definition choose_first_options : M unit :=
  try (select_boxes <- all (Locator (py "select")) ;;
       for_each select_boxes
         (fun select_box =>
            is_disabled <- (try call (IsDisabled select_box) except ret false) ;;
            (if negb is_disabled then
               options <- all (SubLocator select_box (py "option")) ;;
               for_each options
                 (fun opt =>
                    dv <- (try (disabled <- call (IsDisabled opt) ;;
                                value <- call (GetAttribute opt (py "value")) ;;
                                ret (disabled, value))
                           except ret (true, None)) ;;
                    if selectable (fst dv) (snd dv) then
                      match snd dv with
                      | Some value =>
                          call (SelectOption select_box false value) ;; ret Break
                      | None => ret Break
                      end
                    else ret Next) ;;
               ret tt
             else ret tt) ;;
            ret Next) ;;
       ret tt)
  except ret tt.

(** Lines 523-568: the value of [progressed] after the three attempts.  In
    the second and third attempt [progressed] is set before the pause, so a
    pause that raises leaves it set. *)
Definition try_actions : M bool :=
  f <- for_each action_labels
         (fun label =>
            clicked <- click_if_visible label 800 ;;
            if clicked then call (WaitForTimeout 400) ;; ret Break
            else ret Next) ;;
  let progressed := match f with Break => true | _ => false end in
  progressed <-
    (if negb progressed then
       try (let link := GetByRole (py "link") (Some (py "下一步")) in
            call (Click (First link) (Some 500%Z)) ;;
            (try call (WaitForTimeout 300) except ret tt) ;;
            ret true)
       except ret false
     else ret progressed) ;;
  if negb progressed then
    try (buttons <- all (Locator (py "button")) ;;
         g <- for_each buttons
                (fun btn =>
                   text <- (try (t <- call (InnerText btn) ;; ret (strip t))
                            except ret (py "")) ;;
                   if truthy text
                      && existsb (fun k => str_in k text) common_next_labels
                   then
                     call (Click btn (Some 500%Z)) ;;
                     (try call (WaitForTimeout 300) except ret tt) ;;
                     ret Break
                   else ret Next) ;;
         ret (match g with Break => true | _ => false end))
    except ret false
  else ret progressed.

(** Lines 570-586: [return] on a success marker, [break] without progress. *)
Definition exit_check (progressed : bool) : M flow :=
  found <- (try (body_text <- call Content ;; ret (has_success_marker body_text))
            except ret false) ;;
  if found then ret Return
  else if negb progressed then ret Break
  else ret Next.

(** One pass of the body of [for _ in range(20)]. *)
Definition advance_once : M flow :=
  choose_first_options ;;
  progressed <- try_actions ;;
  exit_check progressed.

(** [def navigate_purchase_flow(page, timeout_ms)] *)
Definition navigate_purchase_flow (timeout_ms : Z) : M unit :=
  for_each (seq 0 20) (fun _ => advance_once) ;;
  ret tt.

End Program.

(** ** Test doubles

    Concrete collaborators on which the program can be run. *)

Definition ascii_only : Unicode :=
  {| unicode_isdigit := fun _ => false;
     unicode_isalnum := fun _ => false;
     unicode_isspace := fun _ => false |}.

(** Pictures are already gray; rotation and cropping leave them alone. *)
Definition plain_libs (imported : bool) : Libs :=
  {| ocr_imported := imported;
     picture := gray;
     convert_L := fun p => p;
     crop := fun p _ => p;
     rotate := fun img _ _ _ => img |}.

(** A page on which every call succeeds: one element per locator, the
    operator types [typed], the engine reads [seen] in every image. *)
Definition willing_exec (imported : bool) (typed seen : pystr) A
    (c : @pageE (plain_libs imported) A) (w : unit) : result A * unit :=
  match c in pageE T return result T * unit with
  | WaitFor _ _ _ => (Ok tt, w)
  | Click _ _ => (Ok tt, w)
  | Check _ _ => (Ok tt, w)
  | IsChecked _ => (Ok false, w)
  | IsDisabled _ => (Ok false, w)
  | ScrollIntoView _ => (Ok tt, w)
  | Fill _ _ _ => (Ok tt, w)
  | Press _ _ => (Ok tt, w)
  | GetAttribute _ _ => (Ok (Some (py "1")), w)
  | InnerText _ => (Ok (py "A"), w)
  | Count _ => (Ok 1%nat, w)
  | SelectOption _ _ _ => (Ok tt, w)
  | BoundingBox _ =>
      (Ok (Some {| box_x := 300; box_y := 200; box_width := 120; box_height := 40 |}), w)
  | LocatorScreenshot _ _ => (Ok tt, w)
  | PageScreenshot _ _ => (Ok tt, w)
  | Content => (Ok (py "<html></html>"), w)
  | Evaluate _ _ => (Ok tt, w)
  | WaitForTimeout _ => (Ok tt, w)
  | Sleep _ => (Ok tt, w)
  | Input _ => (Ok typed, w)
  | WriteFile _ _ => (Ok tt, w)
  | ImageOpen _ => (Ok [[0; 200]; [120; 255]]%Z, w)
  | ImageSave _ _ => (Ok tt, w)
  | ImageToString _ _ => (Ok seen, w)
  end.

Definition willing (imported : bool) (typed seen : pystr)
    : @Driver (plain_libs imported) :=
  {| world := unit; exec := @willing_exec imported typed seen |}.

(** A page with no matching element: counting finds nothing, the page content
    is [content], every other call times out. *)
Definition barren_exec (content : pystr) A (c : @pageE (plain_libs false) A)
    (w : unit) : result A * unit :=
  match c in pageE T return result T * unit with
  | Count _ => (Ok 0%nat, w)
  | Content => (Ok content, w)
  | _ => (Raise TimeoutError, w)
  end.

Definition barren (content : pystr) : @Driver (plain_libs false) :=
  {| world := unit; exec := @barren_exec content |}.

(** A page that holds nothing but a form without a submit button: the form
    can be scrolled to and scripts run on it, every other call times out. *)
Definition bare_form_exec A (c : @pageE (plain_libs false) A) (w : unit)
    : result A * unit :=
  match c in pageE T return result T * unit with
  | ScrollIntoView (First (Locator _)) => (Ok tt, w)
  | Evaluate _ (Some _) => (Ok tt, w)
  | _ => (Raise TimeoutError, w)
  end.

Definition bare_form : @Driver (plain_libs false) :=
  {| world := unit; exec := bare_form_exec |}.

(** A page made of dropdowns only.  [select_option] follows Playwright: a
    string given by value picks the first option whose value or label is that
    string, a string given by label the first whose label is; the pick is
    recorded.  Calls the dropdowns do not answer fail. *)
Record option_el := { opt_value : option pystr; opt_text : pystr }.

Record form_page := {
  page_selects : list (list option_el);
  page_chosen : list (nat * option_el)
}.

Definition opt_matches (by_label : bool) (v : pystr) (o : option_el) : bool :=
  str_eqb v (opt_text o)
  || (negb by_label
      && match opt_value o with Some x => str_eqb v x | None => false end).

Definition form_exec A (c : @pageE (plain_libs false) A) (w : form_page)
    : result A * form_page :=
  match c in pageE T return result T * form_page with
  | Count (Locator _) => (Ok (List.length (page_selects w)), w)
  | Count (SubLocator (Nth (Locator _) i) _) =>
      (Ok (List.length (nth i (page_selects w) [])), w)
  | GetAttribute (Nth (SubLocator (Nth (Locator _) i) _) j) _ =>
      match nth_error (nth i (page_selects w) []) j with
      | Some o => (Ok (opt_value o), w)
      | None => (Raise TimeoutError, w)
      end
  | InnerText (Nth (SubLocator (Nth (Locator _) i) _) j) =>
      match nth_error (nth i (page_selects w) []) j with
      | Some o => (Ok (opt_text o), w)
      | None => (Raise TimeoutError, w)
      end
  | SelectOption (Nth (Locator _) i) by_label v =>
      match find (opt_matches by_label v) (nth i (page_selects w) []) with
      | Some o =>
          (Ok tt, {| page_selects := page_selects w;
                     page_chosen := page_chosen w ++ [(i, o)] |})
      | None => (Raise TimeoutError, w)
      end
  | _ => (Raise TimeoutError, w)
  end.

Definition form_driver : @Driver (plain_libs false) :=
  {| world := form_page; exec := form_exec |}.

(** The dropdown of the select-option scenario. *)
Definition quantity_page : form_page :=
  {| page_selects :=
       [[ {| opt_value := Some (py "0"); opt_text := py "-" |};
          {| opt_value := Some (py "1"); opt_text := py "A" |};
          {| opt_value := Some (py "2"); opt_text := py "B" |} ]];
     page_chosen := [] |}.

(** ** Vocabulary of the properties *)

(** The order of the keys [(len(s), s)]. *)
Definition key_compare (a b : pystr) : comparison :=
  match Nat.compare (List.length a) (List.length b) with
  | Eq => str_compare a b
  | c => c
  end.

(** [a] does not exceed [b] in key order. *)
Definition key_le (a b : pystr) : Prop := key_compare a b <> Gt.

Section Vocabulary.
Context {L : Libs} {D : Driver}.

(** Every call that [m] makes, from any state, satisfies [P]. *)
Definition emits (P : event -> Prop) A (m : M A) : Prop :=
  forall w, Forall P (snd (m w)).

(** The number of calls of kind [p]. *)
Definition tally (p : event -> bool) (evs : list event) : nat :=
  List.length (filter p evs).

(** [m] makes at most [n] calls of kind [p], from any state. *)
Definition at_most (p : event -> bool) (n : nat) A (m : M A) : Prop :=
  forall w, (tally p (snd (m w)) <= n)%nat.


(** The first call of [m], from any state, is [c]. *)
Definition opens_with A B (c : pageE B) (m : M A) : Prop :=
  forall w, exists r rest, snd (m w) = Ev c r :: rest.

Definition is_break (f : flow) : bool :=
  match f with Break => true | _ => false end.

(** The call returned. *)
Definition succeeded (e : event) : bool :=
  match e with
  | Ev _ (Ok _) => true
  | Ev _ (Raise _) => false
  end.

(** The element a call addresses. *)
Definition locator_of (e : event) : option locator :=
  match e with
  | Ev c _ =>
      match c with
      | WaitFor l _ _ | Click l _ | Check l _ | IsChecked l | IsDisabled l
      | ScrollIntoView l | Fill l _ _ | Press l _ | GetAttribute l _
      | InnerText l | Count l | SelectOption l _ _ | BoundingBox l
      | LocatorScreenshot l _ => Some l
      | _ => None
      end
  end.



Definition is_click (e : event) : bool :=
  match e with Ev (Click _ _) _ => true | _ => false end.

Definition is_fill (e : event) : bool :=
  match e with Ev (Fill _ _ _) _ => true | _ => false end.

Definition is_press (e : event) : bool :=
  match e with Ev (Press _ _) _ => true | _ => false end.

Definition is_evaluate_on_element (e : event) : bool :=
  match e with Ev (Evaluate _ (Some _)) _ => true | _ => false end.

Definition clicked (e : event) : bool := is_click e && succeeded e.
Definition filled (e : event) : bool := is_fill e && succeeded e.

(** A key press, a click or a script run on an element that went through:
    the ways step 10 gets the form sent. *)
Definition submitted (e : event) : bool :=
  (is_press e || is_click e || is_evaluate_on_element e) && succeeded e.

Definition is_recognition (e : event) : bool :=
  match e with Ev (ImageToString _ _) _ => true | _ => false end.

Definition is_input (e : event) : bool :=
  match e with Ev (Input _) _ => true | _ => false end.

(** The image handed to the engine for one angle and threshold. *)
Definition variant (base : gray) (angle th : Z) : gray :=
  point (invert (rotate base angle true 255)) (binarize th).

(** The engine read [raw] in the variant of [base] for [angle] and [th]. *)
Definition recognition (base : gray) (x : Z * Z * pystr) : event :=
  match x with
  | (angle, th, raw) =>
      Ev (ImageToString (variant base angle th) (py "--psm 7")) (Ok raw)
  end.

(** The pairs of the two loops, in the order they are visited. *)
Definition grid : list (Z * Z) := list_prod angles thresholds.

(** A [select_option] call asks for [v]. *)
Definition asks_for (v : pystr) (e : event) : Prop :=
  match e with
  | Ev (SelectOption _ _ value) _ => value = v
  | _ => True
  end.

Definition is_select_option (e : event) : bool :=
  match e with Ev (SelectOption _ _ _) _ => true | _ => false end.

(** The prompt of line 358. *)
Definition captcha_prompt : pystr := py "[auto-buy] 請輸入頁面上的驗證碼後按 Enter： ".





End Vocabulary.

(** ** Further test doubles and vocabulary *)

(** The page on which everything works, except the calls that [refuses]
    picks out: those time out. *)
Definition picky_exec (refuses : forall A, @pageE (plain_libs false) A -> bool)
    (typed : pystr) A (c : @pageE (plain_libs false) A) (w : unit)
    : result A * unit :=
  if refuses A c then (Raise TimeoutError, w)
  else willing_exec (imported := false) typed (py "") c w.

Definition picky (refuses : forall A, @pageE (plain_libs false) A -> bool)
    (typed : pystr) : @Driver (plain_libs false) :=
  {| world := unit; exec := @picky_exec refuses typed |}.

Definition is_pause A (c : @pageE (plain_libs false) A) : bool :=
  match c with WaitForTimeout _ => true | _ => false end.

Section FurtherVocabulary.
Context {L : Libs} {D : Driver}.

(** When [m] raises [e], its last call is one that [P] accepts for [e]. *)
Definition raises_at (P : exn -> event -> Prop) A (m : M A) : Prop :=
  forall w e w1 evs,
    m w = (Raise e, w1, evs) -> exists pre ev, evs = pre ++ [ev] /\ P e ev.

(** [m] returns a value from every state. *)
Definition never_raises A (m : M A) : Prop :=
  forall w, exists a w1 evs, m w = (Ok a, w1, evs).

(** Every value that [m] returns satisfies [Q]. *)
Definition returns A (Q : A -> Prop) (m : M A) : Prop :=
  forall w a w1 evs, m w = (Ok a, w1, evs) -> Q a.

(** At most one call of kind [p], and none when the loop body asks for the
    next item. *)
Definition once_unless_next (p : event -> bool) (m : M flow) : Prop :=
  forall w,
    (tally p (snd (m w)) <= 1)%nat
    /\ (fst (fst (m w)) = Ok Next -> tally p (snd (m w)) = 0%nat).



Definition is_check (e : event) : bool :=
  match e with Ev (Check _ _) _ => true | _ => false end.


(** A call that acts on the page: click, tick, fill, key press, option
    choice or script. *)
Definition acts (e : event) : bool :=
  match e with
  | Ev c _ =>
      match c with
      | Click _ _ | Check _ _ | Fill _ _ _ | Press _ _ | SelectOption _ _ _
      | Evaluate _ _ => true
      | _ => false
      end
  end.

(** The markup read by the successful [page.content()] calls. *)
Definition contents_read (evs : list event) : list pystr :=
  flat_map
    (fun e =>
       match e with
       | Ev c r =>
           match c in pageE T return result T -> list pystr with
           | Content => fun r => match r with Ok t => [t] | Raise _ => [] end
           | _ => fun _ => []
           end r
       end)
    evs.

(** A [time.sleep] is never asked for a negative time. *)
Definition sleeps_forward (e : event) : Prop :=
  match e with
  | Ev (Sleep seconds) _ => (0 <= seconds)%Q
  | _ => True
  end.

(** An option is chosen by a value that is not empty, "0" or "-1". *)
Definition chooses_real_option (e : event) : Prop :=
  match e with
  | Ev (SelectOption _ by_label value) _ =>
      by_label = false /\ value <> py "" /\ value <> py "0" /\ value <> py "-1"
  | _ => True
  end.

(** A field is filled with [v]. *)
Definition fills_with (v : pystr) (e : event) : Prop :=
  match e with
  | Ev (Fill _ value _) _ => value = v /\ v <> py ""
  | _ => True
  end.

End FurtherVocabulary.

(** ** The session: [run] *)

Definition HOMEPAGE : pystr := py "https://ticket-training.onrender.com/".

Section Session.
Context {U : Unicode} {L : Libs}.

(** The calls of [run]: those on the browser, the context and the page
    itself, and through [OnPage] every call the steps make. *)
Inductive sessionE : Type -> Type :=
| Launch (headless : bool) (slow_mo : Z) : sessionE unit
| NewContext : sessionE unit
| NewPage : sessionE unit
| SetDefaultTimeout (ms : Z) : sessionE unit
| Goto (url wait_until : pystr) : sessionE unit
| Url : sessionE pystr
| ContextClose : sessionE unit
| BrowserClose : sessionE unit
| OnPage (A : Type) (c : pageE A) : sessionE A.

Inductive session_event :=
| SEv (A : Type) (c : sessionE A) (r : result A).

Class Session := {
  session : Type;
  session_exec : forall A, sessionE A -> session -> result A * session
}.

Context {S : Session}.

(** The page of the session, as the steps see it. *)
#[local] Instance page_of_session : Driver :=
  {| world := session; exec := fun A c => session_exec (OnPage c) |}.

Definition SM (A : Type) := session -> result A * session * list session_event.

Definition sret A (a : A) : SM A := fun w => (Ok a, w, []).

Definition sbind A B (m : SM A) (k : A -> SM B) : SM B :=
  fun w =>
    match m w with
    | (Ok a, w1, e1) =>
        match k a w1 with
        | (r, w2, e2) => (r, w2, e1 ++ e2)
        end
    | (Raise e, w1, e1) => (Raise e, w1, e1)
    end.

Definition scall A (c : sessionE A) : SM A :=
  fun w => match session_exec c w with (r, w1) => (r, w1, [SEv c r]) end.

Definition stry A (m h : SM A) : SM A :=
  fun w =>
    match m w with
    | (Ok a, w1, e1) => (Ok a, w1, e1)
    | (Raise _, w1, e1) =>
        match h w1 with
        | (r, w2, e2) => (r, w2, e1 ++ e2)
        end
    end.

Definition on_page (e : event) : session_event :=
  match e with Ev c r => SEv (OnPage c) r end.

(** A step of the flow, run on the page of the session. *)
Definition step A (m : M A) : SM A :=
  fun w => match m w with (r, w1, evs) => (r, w1, map on_page evs) end.

Notation "m ;;; k" := (sbind m (fun _ => k))
  (at level 61, right associativity).

(** [def run(playwright, headless, slowmo, seconds, timeout_ms, price,
    quantity)] *)
Definition run (headless : bool) (slowmo seconds timeout_ms : Z)
    (price : pystr) (quantity : Z) : SM unit :=
  scall (Launch headless slowmo) ;;;
  scall NewContext ;;;
  scall NewPage ;;;
  scall (SetDefaultTimeout timeout_ms) ;;;
  step (log (py "開啟首頁…")) ;;;
  scall (Goto HOMEPAGE (py "domcontentloaded")) ;;;
  step (dismiss_adblock_and_disclaimers timeout_ms) ;;;
  step (wait_for_user_prep_and_countdown seconds) ;;;
  step double_click_buy ;;;
  stry (sbind (scall Url)
          (fun url =>
             if negb (str_in (py "progress") url) then
               step (log (py "導向 /progress 練習頁…")) ;;;
               scall (Goto (HOMEPAGE ++ py "progress") (py "load"))
             else sret tt))
       (sret tt) ;;;
  step (select_price_and_quantity price quantity timeout_ms) ;;;
  step (fill_captcha_and_confirm timeout_ms) ;;;
  (if negb headless then
     step (log (py "步驟 11：流程暫停於此，請檢查頁面。視窗會保持開啟 10 分鐘或直到你關閉。")) ;;;
     step (call (WaitForTimeout 600000))
   else sret tt) ;;;
  scall ContextClose ;;;
  scall BrowserClose.

(** [browser.close()] returned. *)
Definition browser_closed (e : session_event) : bool :=
  match e with
  | SEv BrowserClose (Ok _) => true
  | _ => false
  end.

(** A call that closes the context or the browser. *)
Definition is_close (e : session_event) : bool :=
  match e with
  | SEv ContextClose _ | SEv BrowserClose _ => true
  | _ => false
  end.

(** The pause of ten minutes. *)
Definition is_long_pause (e : session_event) : bool :=
  match e with
  | SEv (OnPage (WaitForTimeout ms)) _ => (ms =? 600000)%Z
  | _ => false
  end.

(** Every call of [m] is of a kind that [p] rejects. *)
Definition session_silent (p : session_event -> bool) A (m : SM A) : Prop :=
  forall w, existsb p (snd (m w)) = false.

(** The run returned exactly if [browser.close()] did. *)
Definition closed_iff_returned
    (x : result unit * session * list session_event) : Prop :=
  fst (fst x) = Ok tt <-> existsb browser_closed (snd x) = true.

End Session.

(** A session in which everything works, over the page [willing]; the page
    calls that [refuses] picks out time out. *)
Definition easy_session_exec (refuses : forall A, @pageE (plain_libs false) A -> bool)
    A (c : @sessionE (plain_libs false) A) (w : unit) : result A * unit :=
  match c in sessionE T return result T * unit with
  | Launch _ _ => (Ok tt, w)
  | NewContext => (Ok tt, w)
  | NewPage => (Ok tt, w)
  | SetDefaultTimeout _ => (Ok tt, w)
  | Goto _ _ => (Ok tt, w)
  | Url => (Ok HOMEPAGE, w)
  | ContextClose => (Ok tt, w)
  | BrowserClose => (Ok tt, w)
  | OnPage c => picky_exec refuses (py "AB12") c w
  end.

Definition easy_session (refuses : forall A, @pageE (plain_libs false) A -> bool)
    : @Session (plain_libs false) :=
  {| session := unit; session_exec := @easy_session_exec refuses |}.

Definition refuses_nothing A (c : @pageE (plain_libs false) A) : bool := false.

(** ** Vocabulary of the readings, the timeouts and the dropdown scan *)

(** The recognition engine fails on every image. *)
Definition is_reading A (c : @pageE (plain_libs false) A) : bool :=
  match c with ImageToString _ _ => true | _ => false end.

(** The page has no form. *)
Definition on_form A (c : @pageE (plain_libs false) A) : bool :=
  match c with
  | ScrollIntoView (First (Locator s)) => str_eqb s (py "form")
  | _ => false
  end.

Section Readings.
Context {U : Unicode} {L : Libs} {D : Driver}.

(** The texts the engine returned, call by call. *)
Definition readings (evs : list event) : list pystr :=
  flat_map
    (fun e =>
       match e with
       | Ev c r =>
           match c in pageE T return result T -> list pystr with
           | ImageToString _ _ =>
               fun r => match r with Ok raw => [raw] | Raise _ => [] end
           | _ => fun _ => []
           end r
       end)
    evs.

(** The winning candidate of line 345 among the texts the engine returned
    when all 14 variants were read; with fewer readings there is none, and
    [user_code] keeps the empty string of line 235. *)
Definition winner_of (raws : list pystr) : pystr :=
  if (List.length raws =? 14)%nat then select_candidate (map keep_alnum raws)
  else py "".

(** An OCR attempt against the answers of the engine: the value it returns
    is the winner among them, and an exception leaves fewer than 14. *)
Definition tells_winner (r : result pystr) (evs : list event) : Prop :=
  match r with
  | Ok code => code = winner_of (readings evs)
  | Raise _ => (List.length (readings evs) < 14)%nat
  end.




(** The [select_option] calls in order: the dropdown, whether by label, and
    the string asked for. *)
Definition select_requests (evs : list event) : list (locator * bool * pystr) :=
  flat_map
    (fun e =>
       match e with
       | Ev (SelectOption l by_label v) _ => [(l, by_label, v)]
       | _ => []
       end)
    evs.

(** The files asked to be written, and those whose writing went through. *)
Definition writes_asked (evs : list event) : list (pystr * pystr) :=
  flat_map
    (fun e =>
       match e with
       | Ev (WriteFile path content) _ => [(path, content)]
       | _ => []
       end)
    evs.

Definition files_saved (evs : list event) : list (pystr * pystr) :=
  flat_map
    (fun e =>
       match e with
       | Ev (WriteFile path content) (Ok _) => [(path, content)]
       | _ => []
       end)
    evs.

(** The field a key is pressed on, and the field a fill went through on. *)
Definition press_target (e : event) : option locator :=
  match e with Ev (Press l _) _ => Some l | _ => None end.

Definition filled_target (e : event) : option locator :=
  match e with Ev (Fill l _ _) (Ok _) => Some l | _ => None end.

(** A key is pressed only on a field that a fill went through on. *)
Definition enter_where_filled (evs : list event) : Prop :=
  forall l, In (Some l) (map press_target evs) ->
            In (Some l) (map filled_target evs).

(** The wait for the button of the first confirmation label (line 410). *)
Definition looks_for_confirm (e : event) : bool :=
  match e with
  | Ev (WaitFor (First (GetByRole _ (Some name))) _ _) _ =>
      str_eqb name (py "確認張數")
  | _ => false
  end.

(** When a key is pressed, the first confirmation label is looked for after
    it. *)
Definition labels_follow_enter (evs : list event) : Prop :=
  existsb is_press evs = true ->
  exists pre e post,
    evs = pre ++ e :: post
    /\ is_press e = true
    /\ existsb looks_for_confirm post = true.

(** The loop body of [select_quantity] (lines 208-226) on its own. *)
Definition scan_select (quantity : Z) (sel : locator) : M flow :=
  options <- all (SubLocator sel (py "option")) ;;
  values <- map_m (fun opt => call (GetAttribute opt (py "value"))) options ;;
  texts <- map_m (fun opt =>
                    try (t <- call (InnerText opt) ;; ret (strip t))
                    except ret (py ""))
             options ;;
  let target := str_of_int quantity in
  if offers target values texts then
    (try (call (SelectOption sel false target) ;;
          log (py "已透過 value 選擇張數"))
     except (call (SelectOption sel true target) ;;
             log (py "已透過 label 選擇張數"))) ;;
    ret Break
  else ret Next.

(** An option whose value attribute or stripped display text is [target]. *)
Definition option_is (target : pystr) (o : option_el) : bool :=
  match opt_value o with Some v => str_eqb target v | None => false end
  || str_eqb target (strip (opt_text o)).

(** The first dropdown, counted from [i], that has such an option. *)
Fixpoint first_offering (target : pystr) (selects : list (list option_el))
    (i : nat) : option nat :=
  match selects with
  | [] => None
  | options :: rest =>
      if existsb (option_is target) options then Some i
      else first_offering target rest (S i)
  end.

End Readings.

(** * Properties *)

(** ** Strings and candidate selection *)

Lemma str_compare_refl (a : pystr) : str_compare a a = Eq.
Proof.
  induction a as [|x a IH]; simpl; [reflexivity|].
  now rewrite N.compare_refl.
Qed.

Lemma str_compare_eq (a b : pystr) : str_compare a b = Eq -> a = b.
Proof.
  revert b; induction a as [|x a IH]; intros [|y b]; simpl; try easy.
  destruct (x ?= y)%N eqn:E; try easy.
  apply N.compare_eq in E; subst; intros H; f_equal; auto.
Qed.

Lemma str_compare_antisym (a b : pystr) :
  str_compare b a = CompOpp (str_compare a b).
Proof.
  revert b; induction a as [|x a IH]; intros [|y b]; simpl; try reflexivity.
  rewrite (N.compare_antisym x y).
  destruct (x ?= y)%N; simpl; auto.
Qed.

Lemma str_compare_lt_trans (a b c : pystr) :
  str_compare a b = Lt -> str_compare b c = Lt -> str_compare a c = Lt.
Proof.
  revert b c; induction a as [|x a IH]; intros [|y b] [|z c]; simpl; try easy.
  destruct (x ?= y)%N eqn:Exy; try easy; destruct (y ?= z)%N eqn:Eyz; try easy.
  - apply N.compare_eq in Exy, Eyz; subst; rewrite N.compare_refl; eauto.
  - apply N.compare_eq in Exy; subst; now rewrite Eyz.
  - apply N.compare_eq in Eyz; subst; now rewrite Exy.
  - intros _ _.
    assert (H : (x ?= z)%N = Lt)
      by (rewrite N.compare_lt_iff in *; lia).
    now rewrite H.
Qed.

Lemma key_gt_compare (a b : pystr) :
  key_gt a b = match key_compare a b with Gt => true | _ => false end.
Proof.
  unfold key_gt, key_compare.
  destruct (Nat.compare (List.length a) (List.length b)); reflexivity.
Qed.

Lemma key_compare_refl (a : pystr) : key_compare a a = Eq.
Proof.
  unfold key_compare; rewrite Nat.compare_refl; apply str_compare_refl.
Qed.

Lemma key_compare_antisym (a b : pystr) :
  key_compare b a = CompOpp (key_compare a b).
Proof.
  unfold key_compare.
  rewrite (Nat.compare_antisym (List.length a) (List.length b)).
  destruct (Nat.compare (List.length a) (List.length b)); simpl; auto.
  apply str_compare_antisym.
Qed.

Lemma key_compare_lt_trans (a b c : pystr) :
  key_compare a b = Lt -> key_compare b c = Lt -> key_compare a c = Lt.
Proof.
  unfold key_compare.
  destruct (Nat.compare (List.length a) (List.length b)) eqn:Eab; try easy;
    destruct (Nat.compare (List.length b) (List.length c)) eqn:Ebc; try easy;
    intros Hab Hbc.
  - apply Nat.compare_eq in Eab, Ebc.
    replace (Nat.compare (List.length a) (List.length c)) with Eq
      by (symmetry; apply Nat.compare_eq_iff; lia).
    eapply str_compare_lt_trans; eauto.
  - apply Nat.compare_eq in Eab; rewrite Eab, Ebc; reflexivity.
  - apply Nat.compare_eq in Ebc; rewrite <- Ebc, Eab; reflexivity.
  - apply Nat.compare_lt_iff in Eab, Ebc.
    replace (Nat.compare (List.length a) (List.length c)) with Lt
      by (symmetry; apply Nat.compare_lt_iff; lia).
    reflexivity.
Qed.

Lemma key_compare_eq (a b : pystr) : key_compare a b = Eq -> a = b.
Proof.
  unfold key_compare.
  destruct (Nat.compare (List.length a) (List.length b)); try easy.
  apply str_compare_eq.
Qed.

Lemma key_le_trans (a b c : pystr) : key_le a b -> key_le b c -> key_le a c.
Proof.
  unfold key_le; intros Hab Hbc.
  destruct (key_compare a b) eqn:Eab; try easy.
  - apply key_compare_eq in Eab; subst; assumption.
  - destruct (key_compare b c) eqn:Ebc; try easy.
    + apply key_compare_eq in Ebc; subst; now rewrite Eab.
    + now rewrite (key_compare_lt_trans _ _ _ Eab Ebc).
Qed.

Lemma key_le_total (a b : pystr) : key_gt a b = false -> key_le a b.
Proof.
  rewrite key_gt_compare; unfold key_le.
  destruct (key_compare a b); easy.
Qed.

Lemma key_gt_le (a b : pystr) : key_gt a b = true -> key_le b a.
Proof.
  rewrite key_gt_compare; unfold key_le.
  rewrite (key_compare_antisym a b).
  destruct (key_compare a b); easy.
Qed.

Lemma max_from_spec (rest : list pystr) :
  forall best,
    (max_from best rest = best \/ In (max_from best rest) rest)
    /\ key_le best (max_from best rest)
    /\ (forall c, In c rest -> key_le c (max_from best rest)).
Proof.
  induction rest as [|x r IH]; intros best; simpl.
  - split; [now left|]. split; [|easy].
    unfold key_le; now rewrite key_compare_refl.
  - destruct (key_gt x best) eqn:E.
    + destruct (IH x) as (Hin & Hle & Hall).
      split; [destruct Hin as [->|Hin]; auto|].
      split; [eapply key_le_trans; [apply key_gt_le, E|exact Hle]|].
      intros c [<-|Hc]; auto.
    + destruct (IH best) as (Hin & Hle & Hall).
      split; [destruct Hin as [->|Hin]; auto|].
      split; [exact Hle|].
      intros c [<-|Hc]; auto.
      eapply key_le_trans; [apply key_le_total, E|exact Hle].
Qed.

Lemma key_le_length (a b : pystr) :
  key_le a b ->
  (List.length a <= List.length b)%nat
  /\ (List.length a = List.length b -> str_compare a b <> Gt).
Proof.
  unfold key_le, key_compare.
  destruct (Nat.compare (List.length a) (List.length b)) eqn:E; intros H.
  - apply Nat.compare_eq in E; split; [lia|auto].
  - apply Nat.compare_lt_iff in E; split; [lia|intros; lia].
  - easy.
Qed.

Lemma max_from_all_empty (rest : list pystr) :
  Forall (fun c => c = []) rest -> max_from [] rest = [].
Proof.
  induction rest as [|x r IH]; simpl; intros H; [reflexivity|].
  inversion H; subst; simpl; auto.
Qed.

(** C1.  The winner of [max(candidates, key=lambda s: (len(s), s), default="")]:
    for a non-empty list it is one of the candidates, no candidate is longer,
    and no candidate of the same length comes after it in code point order;
    an empty list and a list of empty strings give the empty string.  The
    winner is a function of the list, so it is determined and always exists. *)
Theorem select_candidate_longest_then_greatest (candidates : list pystr) :
  (candidates = [] -> select_candidate candidates = [])
  /\ (Forall (fun c => c = []) candidates -> select_candidate candidates = [])
  /\ (candidates <> [] ->
      In (select_candidate candidates) candidates
      /\ forall c, In c candidates ->
           (List.length c <= List.length (select_candidate candidates))%nat
           /\ (List.length c = List.length (select_candidate candidates) ->
               str_compare c (select_candidate candidates) <> Gt)).
Proof.
  split; [intros ->; reflexivity|].
  split.
  - destruct candidates as [|x r]; [reflexivity|].
    intros H; inversion H; subst; simpl; now apply max_from_all_empty.
  - destruct candidates as [|x r]; [easy|intros _; simpl].
    destruct (max_from_spec r x) as (Hin & Hle & Hall).
    split; [destruct Hin as [->|Hin]; auto|].
    intros c [<-|Hc]; apply key_le_length; auto.
Qed.

Lemma select_candidate_longest_then_greatest_witness :
  In (py "abd") [py "ab"; py ""; py "zz"; py "abc"; py "abd"; py "ABD"]
  /\ select_candidate [py "ab"; py ""; py "zz"; py "abc"; py "abd"; py "ABD"]
     = py "abd"
  /\ select_candidate [py ""; py ""] = [].
Proof.
  split; [|split].
  - exact (proj1 (proj2 (proj2 (select_candidate_longest_then_greatest
             [py "ab"; py ""; py "zz"; py "abc"; py "abd"; py "ABD"]))
             ltac:(discriminate))).
  - reflexivity.
  - apply (proj1 (proj2 (select_candidate_longest_then_greatest [py ""; py ""]))).
    repeat constructor.
Defined.

Section StringProperties.
Context {U : Unicode}.

(** C10.  [normalize_digits] is a function on every string and applying it
    twice is applying it once; it turns "NT$2,800" into "2800" and the empty
    string into itself. *)
Theorem normalize_digits_idempotent :
  (forall s, normalize_digits (normalize_digits s) = normalize_digits s)
  /\ normalize_digits (py "NT$2,800") = py "2800"
  /\ normalize_digits (py "") = py "".
Proof.
  split; [|split; reflexivity].
  intros s; unfold normalize_digits.
  induction s as [|c s IH]; simpl; [reflexivity|].
  destruct (isdigit c) eqn:E; simpl; [rewrite E, IH; reflexivity|exact IH].
Qed.

End StringProperties.

(** ** Reasoning about computations *)

Section Computations.
Context {L : Libs} {D : Driver}.

Lemma run_bind A B (m : M A) (k : A -> M B) w :
  bind m k w =
  match m w with
  | (Ok a, w1, e1) => (fst (fst (k a w1)), snd (fst (k a w1)), e1 ++ snd (k a w1))
  | (Raise e, w1, e1) => (Raise e, w1, e1)
  end.
Proof.
  unfold bind; destruct (m w) as [[[a|e] w1] e1]; [|reflexivity].
  destruct (k a w1) as [[r w2] e2]; reflexivity.
Qed.

Lemma run_try A (m h : M A) w :
  try_catch m h w =
  match m w with
  | (Ok a, w1, e1) => (Ok a, w1, e1)
  | (Raise _, w1, e1) => (fst (fst (h w1)), snd (fst (h w1)), e1 ++ snd (h w1))
  end.
Proof.
  unfold try_catch; destruct (m w) as [[[a|e] w1] e1]; [reflexivity|].
  destruct (h w1) as [[r w2] e2]; reflexivity.
Qed.

Lemma events_bind A B (m : M A) (k : A -> M B) w :
  snd (bind m k w) = snd (m w)
  \/ exists a w1, fst (m w) = (Ok a, w1)
                 /\ snd (bind m k w) = snd (m w) ++ snd (k a w1).
Proof.
  rewrite run_bind; destruct (m w) as [[[a|e] w1] e1]; simpl; eauto.
Qed.

Lemma events_try A (m h : M A) w :
  snd (try_catch m h w) = snd (m w)
  \/ exists w1, snd (fst (m w)) = w1
               /\ snd (try_catch m h w) = snd (m w) ++ snd (h w1).
Proof.
  rewrite run_try; destruct (m w) as [[[a|e] w1] e1]; simpl; eauto.
Qed.

Lemma bind_cases A B (m : M A) (k : A -> M B) w :
  (exists e w1 e1, m w = (Raise e, w1, e1) /\ bind m k w = (Raise e, w1, e1))
  \/ (exists a w1 e1 r w2 e2,
        m w = (Ok a, w1, e1) /\ k a w1 = (r, w2, e2)
        /\ bind m k w = (r, w2, e1 ++ e2)).
Proof.
  unfold bind; destruct (m w) as [[[a|e] w1] e1] eqn:Em.
  - right; destruct (k a w1) as [[r w2] e2] eqn:Ek.
    exists a, w1, e1, r, w2, e2; auto.
  - left; exists e, w1, e1; auto.
Qed.

Lemma try_cases A (m h : M A) w :
  (exists a w1 e1, m w = (Ok a, w1, e1) /\ try_catch m h w = (Ok a, w1, e1))
  \/ (exists e w1 e1 r w2 e2,
        m w = (Raise e, w1, e1) /\ h w1 = (r, w2, e2)
        /\ try_catch m h w = (r, w2, e1 ++ e2)).
Proof.
  unfold try_catch; destruct (m w) as [[[a|e] w1] e1] eqn:Em.
  - left; exists a, w1, e1; auto.
  - right; destruct (h w1) as [[r w2] e2] eqn:Eh.
    exists e, w1, e1, r, w2, e2; auto.
Qed.


Variable P : event -> Prop.

Lemma emits_ret A (a : A) : emits P (ret a).
Proof. intros w; constructor. Qed.

Lemma emits_log msg : emits P (log msg).
Proof. apply emits_ret. Qed.

Lemma emits_call A (c : pageE A) : (forall r, P (Ev c r)) -> emits P (call c).
Proof.
  intros H w; unfold call; destruct (exec c w) as [r w1]; simpl.
  constructor; [apply H|constructor].
Qed.

Lemma emits_bind A B (m : M A) (k : A -> M B) :
  emits P m -> (forall a, emits P (k a)) -> emits P (bind m k).
Proof.
  intros Hm Hk w.
  destruct (events_bind m k w) as [->|(a & w1 & _ & ->)]; [apply Hm|].
  apply Forall_app; split; [apply Hm|apply Hk].
Qed.

Lemma emits_try A (m h : M A) : emits P m -> emits P h -> emits P (try_catch m h).
Proof.
  intros Hm Hh w.
  destruct (events_try m h w) as [->|(w1 & _ & ->)]; [apply Hm|].
  apply Forall_app; split; [apply Hm|apply Hh].
Qed.

Lemma emits_for_each X (xs : list X) (body : X -> M flow) :
  (forall x, emits P (body x)) -> emits P (for_each xs body).
Proof.
  intros H; induction xs as [|x r IH]; simpl; [apply emits_ret|].
  apply emits_bind; [apply H|].
  intros [| |]; auto using emits_ret.
Qed.

Lemma emits_map_m X Y (f : X -> M Y) (xs : list X) :
  (forall x, emits P (f x)) -> emits P (map_m f xs).
Proof.
  intros H; induction xs as [|x r IH]; simpl; [apply emits_ret|].
  apply emits_bind; [apply H|intros y].
  apply emits_bind; [apply IH|intros ys; apply emits_ret].
Qed.

Lemma emits_fold_m X S (f : S -> X -> M S) (xs : list X) :
  (forall s x, emits P (f s x)) -> forall s, emits P (fold_m f xs s).
Proof.
  intros H; induction xs as [|x r IH]; intros s; simpl; [apply emits_ret|].
  apply emits_bind; [apply H|auto].
Qed.

Lemma emits_find_m X (hit : X -> M bool) (xs : list X) :
  (forall x, emits P (hit x)) -> emits P (find_m hit xs).
Proof.
  intros H; induction xs as [|x r IH]; simpl; [apply emits_ret|].
  apply emits_bind; [apply H|intros [|]; auto using emits_ret].
Qed.

Lemma emits_all l : (forall r, P (Ev (Count l) r)) -> emits P (all l).
Proof.
  intros H; apply emits_bind; [now apply emits_call|intros; apply emits_ret].
Qed.

Lemma emits_click_if_visible text timeout_ms :
  (forall r, P (Ev (WaitFor (First (GetByRole (py "button") (Some text)))
                      (py "visible") timeout_ms) r)) ->
  (forall r, P (Ev (Click (First (GetByRole (py "button") (Some text))) None) r)) ->
  (forall r, P (Ev (Click (First (GetByText text true)) (Some timeout_ms)) r)) ->
  emits P (click_if_visible text timeout_ms).
Proof.
  intros H1 H2 H3; unfold click_if_visible.
  apply emits_try.
  - apply emits_bind; [now apply emits_call|intros _].
    apply emits_bind; [now apply emits_call|intros _; apply emits_ret].
  - apply emits_try; [|apply emits_ret].
    apply emits_bind; [now apply emits_call|intros _; apply emits_ret].
Qed.

End Computations.

Create HintDb py_prog.
#[global] Hint Unfold save_debug agree_terms_if_present
  dismiss_adblock_and_disclaimers start_countdown_and_buy
  wait_for_user_prep_and_countdown double_click_buy select_price select_quantity
  select_price_and_quantity nearest_image ocr_candidates ocr_user_code
  ask_operator fill_captcha click_confirm submit_form confirm
  fill_captcha_and_confirm choose_first_options try_actions exit_check
  advance_once navigate_purchase_flow : py_prog.

(** Breaks a goal [emits P m] down along the structure of [m]; what is left
    are the calls themselves. *)
Ltac emits_step :=
  lazymatch goal with
  | |- emits _ (bind _ _) => apply emits_bind; [|intros]
  | |- emits _ (try_catch _ _) => apply emits_try
  | |- emits _ (ret _) => apply emits_ret
  | |- emits _ (log _) => apply emits_log
  | |- emits _ (call _) => apply emits_call; intros
  | |- emits _ (all _) => apply emits_all; intros
  | |- emits _ (for_each _ _) => apply emits_for_each; intros
  | |- emits _ (map_m _ _) => apply emits_map_m; intros
  | |- emits _ (fold_m _ _ _) => apply emits_fold_m; intros
  | |- emits _ (find_m _ _) => apply emits_find_m; intros
  | |- emits _ (click_if_visible _ _) => apply emits_click_if_visible; intros
  | |- emits _ (match ?x with _ => _ end) => destruct x
  | |- emits _ (if ?b then _ else _) => destruct b
  | |- emits _ (let _ := _ in _) => cbv zeta
  | |- emits _ _ => progress autounfold with py_prog
  end.

Ltac emits_auto := repeat emits_step.

(** ** Clicking *)

Section Clicks.
Context {L : Libs} {D : Driver}.

(** C5.  [click_if_visible] returns a boolean from every state, whatever the
    page answers: it never raises.  The boolean is [True] exactly when one of
    its clicks went through, and its calls address only the button of that
    name and the element with exactly that text. *)
Theorem click_if_visible_never_raises (text : pystr) (timeout_ms : Z) (w : world) :
  exists b w' evs,
    click_if_visible text timeout_ms w = (Ok b, w', evs)
    /\ b = existsb clicked evs
    /\ Forall (fun e =>
                 locator_of e = Some (First (GetByRole (py "button") (Some text)))
                 \/ locator_of e = Some (First (GetByText text true)))
         evs.
Proof.
  unfold click_if_visible, try_catch, bind, call, ret.
  destruct (exec (WaitFor _ _ _) w) as [[[]|e1] w1];
    [destruct (exec (Click _ None) w1) as [[[]|e2] w2]|];
    try destruct (exec (Click _ (Some _)) _) as [[[]|e3] w3];
    simpl; do 3 eexists; (split; [reflexivity|]); split; try reflexivity;
    repeat (apply Forall_cons || apply Forall_nil); simpl; auto.
Qed.

End Clicks.

(** ** Timeouts of the locator attempts *)

Section Timeouts.
Context {U : Unicode} {L : Libs} {D : Driver}.



End Timeouts.


(** ** Counting calls *)

Section Counting.
Context {L : Libs} {D : Driver}.
Variable p : event -> bool.

Lemma tally_app (a b : list event) : tally p (a ++ b) = (tally p a + tally p b)%nat.
Proof. unfold tally; now rewrite filter_app, length_app. Qed.

Lemma at_most_silent A (m : M A) (n : nat) :
  emits (fun e => p e = false) m -> at_most p n m.
Proof.
  intros H w; specialize (H w); unfold tally.
  induction H as [|e evs He _ IH]; simpl; [lia|].
  now rewrite He.
Qed.


Lemma at_most_bind A B (m : M A) (k : A -> M B) (a b : nat) :
  at_most p a m -> (forall x, at_most p b (k x)) -> at_most p (a + b) (bind m k).
Proof.
  intros Hm Hk w.
  destruct (events_bind m k w) as [->|(x & w1 & _ & ->)].
  - specialize (Hm w); lia.
  - rewrite tally_app; specialize (Hm w); specialize (Hk x w1); lia.
Qed.

Lemma at_most_try A (m h : M A) (a b : nat) :
  at_most p a m -> at_most p b h -> at_most p (a + b) (try_catch m h).
Proof.
  intros Hm Hh w.
  destruct (events_try m h w) as [->|(w1 & _ & ->)].
  - specialize (Hm w); lia.
  - rewrite tally_app; specialize (Hm w); specialize (Hh w1); lia.
Qed.

Lemma at_most_for_each X (xs : list X) (body : X -> M flow) (a : nat) :
  (forall x, at_most p a (body x)) ->
  at_most p (List.length xs * a) (for_each xs body).
Proof.
  intros H; induction xs as [|x r IH]; simpl.
  - intros w; unfold tally; simpl; lia.
  - apply at_most_bind; [apply H|].
    intros [| |]; [exact IH| |]; intros w; unfold tally; simpl; lia.
Qed.

End Counting.

(** ** Calls that a result vouches for *)

Section Hits.
Context {L : Libs} {D : Driver}.
Variable q : event -> bool.







End Hits.

(** ** The advance loop *)

Section AdvanceLoop.
Context {U : Unicode} {L : Libs} {D : Driver}.

Lemma emits_quiet (q : event -> bool) A (m : M A) :
  emits (fun e => q e = false) m -> forall w, existsb q (snd (m w)) = false.
Proof.
  intros H w; specialize (H w).
  induction H as [|e evs He _ IH]; simpl; [reflexivity|].
  now rewrite He.
Qed.





Lemma opens_with_call A (c : pageE A) : opens_with c (call c).
Proof.
  intros w; unfold call; destruct (exec c w) as [r w1]; simpl; eauto.
Qed.

Lemma opens_with_bind A B C (c : pageE C) (m : M A) (k : A -> M B) :
  opens_with c m -> opens_with c (bind m k).
Proof.
  intros H w; destruct (H w) as (r & rest & E).
  destruct (events_bind m k w) as [->|(a & w1 & _ & ->)]; rewrite E; simpl; eauto.
Qed.

Lemma opens_with_try A C (c : pageE C) (m h : M A) :
  opens_with c m -> opens_with c (try_catch m h).
Proof.
  intros H w; destruct (H w) as (r & rest & E).
  destruct (events_try m h w) as [->|(w1 & _ & ->)]; rewrite E; simpl; eauto.
Qed.











End AdvanceLoop.


(** ** Reading the captcha *)

Section Captcha.
Context {U : Unicode} {L : Libs} {D : Driver}.

Lemma binarize_le (th p : Z) :
  binarize th p = if (p <=? th)%Z then 0%Z else 255%Z.
Proof.
  unfold binarize; rewrite Z.gtb_ltb, Z.ltb_antisym.
  destruct (p <=? th)%Z; reflexivity.
Qed.

Lemma variant_pixels (base : gray) (angle th : Z) :
  variant base angle th =
  map (map (fun p => if (255 - p <=? th)%Z then 0%Z else 255%Z))
    (rotate base angle true 255).
Proof.
  unfold variant, point, invert; rewrite map_map.
  apply map_ext; intros row; rewrite map_map.
  apply map_ext; intros p; apply binarize_le.
Qed.

Lemma readings_app (a b : list event) : readings (a ++ b) = readings a ++ readings b.
Proof. apply flat_map_app. Qed.

Lemma read_one (base : gray) (angle th : Z) (candidates : list pystr) w :
  let run :=
    (call (ImageSave (variant base angle th) (py "_captcha_crop.png")) ;;
     raw <- call (ImageToString (variant base angle th) (py "--psm 7")) ;;
     ret (candidates ++ [keep_alnum raw])) w in
  (exists e, fst (fst run) = Raise e /\ forallb succeeded (snd run) = false
             /\ readings (snd run) = [])
  \/ (exists raw,
        fst (fst run) = Ok (candidates ++ [keep_alnum raw])
        /\ filter is_recognition (snd run) = [recognition base (angle, th, raw)]
        /\ forallb succeeded (snd run) = true
        /\ readings (snd run) = [raw]).
Proof.
  unfold bind, call, ret.
  destruct (exec (ImageSave _ _) w) as [[[]|e1] w1]; simpl.
  - destruct (exec (ImageToString _ _) w1) as [[raw|e2] w2]; simpl.
    + right; exists raw; repeat split; reflexivity.
    + left; exists e2; repeat split; reflexivity.
  - left; exists e1; repeat split; reflexivity.
Qed.

(** The inner loop of [ocr_candidates], for one rotated and inverted image. *)
Lemma read_thresholds (base : gray) (angle : Z) (ths : list Z) :
  forall candidates w,
    let run :=
      fold_m
        (fun candidates th =>
           call (ImageSave (variant base angle th) (py "_captcha_crop.png")) ;;
           raw <- call (ImageToString (variant base angle th) (py "--psm 7")) ;;
           ret (candidates ++ [keep_alnum raw]))
        ths candidates w in
    (exists e, fst (fst run) = Raise e /\ forallb succeeded (snd run) = false
               /\ (List.length (readings (snd run)) < List.length ths)%nat)
    \/ (exists raws,
          List.length raws = List.length ths
          /\ fst (fst run) = Ok (candidates ++ map keep_alnum raws)
          /\ filter is_recognition (snd run)
             = map (recognition base) (combine (map (pair angle) ths) raws)
          /\ forallb succeeded (snd run) = true
          /\ readings (snd run) = raws).
Proof.
  induction ths as [|th ths IH]; intros candidates w; cbv zeta.
  { right; exists []; simpl; now rewrite app_nil_r. }
  simpl fold_m.
  match goal with |- context [bind ?m ?k w] =>
    pose proof (read_one base angle th candidates w) as Hone; cbv zeta in Hone;
    destruct (bind_cases m k w)
      as [(e & w1 & e1 & Em & ->)|(c & w1 & e1 & r & w2 & e2 & Em & Ek & ->)]
  end; rewrite Em in Hone; simpl in Hone |- *.
  { destruct Hone as [(e' & _ & Hf & Hr)|(raw & Bad & _)]; [|discriminate].
    left; exists e; repeat split; auto. rewrite Hr; simpl; lia. }
  destruct Hone as [(e' & Bad & _)|(raw & Hc & Hrec & Hs & Hr)]; [discriminate|].
  inversion Hc; subst c; clear Hc.
  specialize (IH (candidates ++ [keep_alnum raw]) w1); cbv zeta in IH.
  rewrite Ek in IH; simpl in IH.
  destruct IH as [(e' & -> & Hf & Hl)|(raws & Hlen & -> & Hrecs & Hs' & Hr')].
  - left; exists e'; split; [reflexivity|]; split.
    + rewrite forallb_app, Hf; apply andb_false_r.
    + rewrite readings_app, length_app, Hr; simpl; lia.
  - right; exists (raw :: raws); simpl; split; [now rewrite Hlen|].
    split; [now rewrite <- app_assoc|].
    split; [rewrite filter_app, Hrec, Hrecs; reflexivity|].
    split; [now rewrite forallb_app, Hs, Hs'|].
    now rewrite readings_app, Hr, Hr'.
Qed.

Lemma combine_app X Y (a b : list X) (c d : list Y) :
  List.length a = List.length c ->
  combine (a ++ b) (c ++ d) = combine a c ++ combine b d.
Proof.
  revert c; induction a as [|x a IH]; intros [|y c]; simpl; try easy.
  intros H; f_equal; apply IH; lia.
Qed.

(** Both loops of [ocr_candidates]. *)
Lemma read_angles (base : gray) (ths angs : list Z) :
  forall candidates w,
    let run :=
      fold_m
        (fun candidates angle =>
           fold_m
             (fun candidates th =>
                call (ImageSave (variant base angle th) (py "_captcha_crop.png")) ;;
                raw <- call (ImageToString (variant base angle th) (py "--psm 7")) ;;
                ret (candidates ++ [keep_alnum raw]))
             ths candidates)
        angs candidates w in
    (exists e, fst (fst run) = Raise e /\ forallb succeeded (snd run) = false
               /\ (List.length (readings (snd run))
                   < List.length (list_prod angs ths))%nat)
    \/ (exists raws,
          List.length raws = List.length (list_prod angs ths)
          /\ fst (fst run) = Ok (candidates ++ map keep_alnum raws)
          /\ filter is_recognition (snd run)
             = map (recognition base) (combine (list_prod angs ths) raws)
          /\ forallb succeeded (snd run) = true
          /\ readings (snd run) = raws).
Proof.
  induction angs as [|angle angs IH]; intros candidates w; cbv zeta.
  { right; exists []; simpl; now rewrite app_nil_r. }
  simpl fold_m.
  change (list_prod (angle :: angs) ths)
    with (map (pair angle) ths ++ list_prod angs ths).
  match goal with |- context [bind ?m ?k w] =>
    pose proof (read_thresholds base angle ths candidates w) as Hrow;
    cbv zeta in Hrow;
    destruct (bind_cases m k w)
      as [(e & w1 & e1 & Em & ->)|(c & w1 & e1 & r & w2 & e2 & Em & Ek & ->)]
  end; rewrite Em in Hrow; simpl fst in Hrow |- *; simpl snd in Hrow |- *.
  { destruct Hrow as [(e' & _ & Hf & Hl)|(raws & _ & Bad & _)]; [|discriminate].
    left; exists e; repeat split; auto.
    rewrite length_app, length_map; lia. }
  destruct Hrow as [(e' & Bad & _)|(row & Hlen & Hc & Hrec & Hs & Hr)];
    [discriminate|].
  inversion Hc; subst c; clear Hc.
  specialize (IH (candidates ++ map keep_alnum row) w1); cbv zeta in IH.
  rewrite Ek in IH; simpl fst in IH; simpl snd in IH.
  destruct IH as [(e' & -> & Hf & Hl)|(raws & Hlen' & -> & Hrecs & Hs' & Hr')].
  - left; exists e'; split; [reflexivity|]; split.
    + rewrite forallb_app, Hf; apply andb_false_r.
    + rewrite readings_app, !length_app, length_map, Hr; lia.
  - right; exists (row ++ raws).
    split; [rewrite !length_app, length_map; congruence|].
    split; [now rewrite map_app, <- app_assoc|].
    split; [rewrite filter_app, Hrec, Hrecs, combine_app, map_app;
            [reflexivity|now rewrite length_map]|].
    split; [now rewrite forallb_app, Hs, Hs'|].
    now rewrite readings_app, Hr, Hr'.
Qed.

Lemma keep_alnum_cons (c : N) (raw : pystr) :
  keep_alnum (c :: raw) = if isalnum c then c :: keep_alnum raw else keep_alnum raw.
Proof. reflexivity. Qed.

(** C4, as the code has it.  From any base image and any state,
    [ocr_candidates] visits the 14 pairs of an angle in (-6, -4, -2, 0, 2, 4,
    6) and a threshold in (115, 160), angle by angle.  For each pair it hands
    the engine, with [--psm 7], the base image rotated by the angle (expanded,
    filled with 255), inverted, and with every pixel of at most the threshold
    set to 0 and every other to 255.  The candidate is what the engine read
    with every character that is not a letter or digit dropped and the others
    kept in place.  When every save and every reading goes through there are
    exactly 14 candidates, one per pair; when one of them raises, the loops
    end with that exception, fewer than 14 images were read and there is no
    candidate list. *)
Theorem ocr_candidates_grid (base : gray) (w : world) :
  grid = [(-6, 115); (-6, 160); (-4, 115); (-4, 160); (-2, 115); (-2, 160);
          (0, 115); (0, 160); (2, 115); (2, 160); (4, 115); (4, 160);
          (6, 115); (6, 160)]%Z
  /\ (forall angle th,
        variant base angle th =
        map (map (fun p => if (255 - p <=? th)%Z then 0%Z else 255%Z))
          (rotate base angle true 255))
  /\ keep_alnum [] = []
  /\ (forall c raw,
        keep_alnum (c :: raw)
        = if isalnum c then c :: keep_alnum raw else keep_alnum raw)
  /\ keep_alnum (py "aB-3 z?9_Q") = py "aB3z9Q"
  /\ ((exists e,
         fst (fst (ocr_candidates base w)) = Raise e
         /\ forallb succeeded (snd (ocr_candidates base w)) = false
         /\ (List.length (readings (snd (ocr_candidates base w))) < 14)%nat)
      \/ (exists raws,
            List.length raws = 14%nat
            /\ fst (fst (ocr_candidates base w)) = Ok (map keep_alnum raws)
            /\ filter is_recognition (snd (ocr_candidates base w))
               = map (recognition base) (combine grid raws)
            /\ forallb succeeded (snd (ocr_candidates base w)) = true
            /\ readings (snd (ocr_candidates base w)) = raws)).
Proof.
  split; [reflexivity|]; split; [apply variant_pixels|].
  split; [reflexivity|]; split; [apply keep_alnum_cons|].
  split; [reflexivity|].
  exact (read_angles base thresholds angles [] w).
Qed.

End Captcha.

(** With an engine that reads "a-b" everywhere: 14 times "ab". *)
Example ocr_candidates_all_read :
  fst (fst (ocr_candidates (U := ascii_only)
              (D := willing true (py "") (py "a-b")) [[0; 200]; [120; 255]]%Z tt))
  = Ok (repeat (py "ab") 14).
Proof. vm_compute; reflexivity. Qed.

(** C4 as stated fails: with an engine that raises, the first reading ends the
    loops and there is no candidate at all, let alone 14. *)
Lemma ocr_candidates_none_when_engine_raises :
  fst (fst (ocr_candidates (U := ascii_only) (D := picky is_reading (py ""))
              [[0; 200]; [120; 255]]%Z tt))
  = Raise TimeoutError
  /\ ~ (exists raws,
          List.length raws = 14%nat
          /\ fst (fst (ocr_candidates (U := ascii_only)
                         (D := picky is_reading (py ""))
                         [[0; 200]; [120; 255]]%Z tt))
             = Ok (map (keep_alnum (U := ascii_only)) raws)).
Proof.
  split; [vm_compute; reflexivity|].
  intros (raws & _ & H); vm_compute in H; discriminate.
Qed.

(** ** Asking the operator *)

Section Operator.
Context {U : Unicode} {L : Libs} {D : Driver}.

Lemma ocr_user_code_returns w :
  exists code w1 e1, ocr_user_code w = (Ok code, w1, e1).
Proof.
  unfold ocr_user_code; destruct ocr_imported; [|unfold ret; eauto].
  match goal with |- context [try_catch ?m ?h w] =>
    destruct (try_cases m h w)
      as [(a & w1 & e1 & _ & ->)|(e & w1 & e1 & r & w2 & e2 & _ & Eh & ->)]
  end; [eauto|].
  unfold log, bind, ret in Eh; inversion Eh; subst; eauto.
Qed.

Lemma events_bind_ok A B (m : M A) (k : A -> M B) w a w1 e1 :
  m w = (Ok a, w1, e1) -> snd (bind m k w) = e1 ++ snd (k a w1).
Proof.
  intros E; unfold bind; rewrite E; destruct (k a w1) as [[r w2] e2]; reflexivity.
Qed.

Lemma ask_operator_empty w :
  exists r w1,
    exec (Input captcha_prompt) w = (r, w1)
    /\ ask_operator (py "") w =
       (match r with Ok typed => Ok (strip typed) | Raise e => Raise e end,
        w1, [Ev (Input captcha_prompt) r]).
Proof.
  unfold ask_operator, bind, call, ret, captcha_prompt; simpl.
  destruct (exec (Input _) w) as [[typed|e] w1]; eauto.
Qed.

Lemma readings_silent A (m : M A) :
  emits (fun e => is_recognition e = false) m ->
  forall w, readings (snd (m w)) = [].
Proof.
  intros H w; specialize (H w).
  induction H as [|e evs He _ IH]; [reflexivity|].
  change (e :: evs) with ([e] ++ evs).
  rewrite readings_app, IH, app_nil_r.
  destruct e as [A' c r]; destruct c; simpl in *; try reflexivity; discriminate.
Qed.

Lemma tells_winner_bind_silent A (m : M A) (k : A -> M pystr) :
  emits (fun e => is_recognition e = false) m ->
  (forall a w, tells_winner (fst (fst (k a w))) (snd (k a w))) ->
  forall w, tells_winner (fst (fst (bind m k w))) (snd (bind m k w)).
Proof.
  intros Hm Hk w; pose proof (readings_silent Hm w) as Q.
  destruct (bind_cases m k w) as [(e & w1 & e1 & Em & ->)
                                 |(a & w1 & e1 & r & w2 & e2 & Em & Ek & ->)];
    rewrite Em in Q; simpl in *.
  - rewrite Q; simpl; lia.
  - specialize (Hk a w1); rewrite Ek in Hk; simpl in Hk.
    destruct r; simpl in *; now rewrite readings_app, Q.
Qed.

(** Lines 321-351: the value of [user_code] after the two loops. *)
Lemma ocr_candidates_tell_winner (base : gray) w :
  let run :=
    (candidates <- ocr_candidates base ;;
     let user_code := select_candidate candidates in
     (if truthy user_code
      then log (py "OCR 取得驗證碼：" ++ user_code)
      else log (py "OCR 未辨識出文字，將回退為人工輸入")) ;;
     ret user_code) w in
  tells_winner (fst (fst run)) (snd run).
Proof.
  cbv zeta.
  pose proof (read_angles base thresholds angles [] w) as H; cbv zeta in H.
  change (fold_m _ angles [] w) with (ocr_candidates base w) in H.
  change (List.length (list_prod angles thresholds)) with 14%nat in H.
  match goal with |- context [bind ?m ?k w] =>
    destruct (bind_cases m k w)
      as [(e & w1 & e1 & Em & ->)|(c & w1 & e1 & r & w2 & e2 & Em & Ek & ->)]
  end; rewrite Em in H; simpl in H |- *.
  - destruct H as [(e' & _ & _ & Hl)|(raws & _ & Bad & _)]; [exact Hl|discriminate].
  - destruct H as [(e' & Bad & _)|(raws & Hlen & Hc & _ & _ & Hr)]; [discriminate|].
    inversion Hc; subst c; clear Hc.
    assert (E : r = Ok (select_candidate (map keep_alnum raws)) /\ e2 = []).
    { revert Ek; unfold log, bind, ret.
      destruct (truthy _); intros Ek; inversion Ek; auto. }
    destruct E as [-> ->]; simpl.
    rewrite app_nil_r, Hr; unfold winner_of; now rewrite Hlen.
Qed.

Lemma ocr_user_code_tells_winner w :
  tells_winner (fst (fst (ocr_user_code w))) (snd (ocr_user_code w)).
Proof.
  unfold ocr_user_code; destruct ocr_imported; [|reflexivity].
  match goal with |- context [try_catch ?m ?h w] =>
    assert (Hbody : forall w', tells_winner (fst (fst (m w'))) (snd (m w')));
      [|destruct (try_cases m h w)
          as [(a & w1 & e1 & Em & ->)|(e & w1 & e1 & r & w2 & e2 & Em & Eh & ->)];
        specialize (Hbody w); rewrite Em in Hbody; simpl in Hbody |- *]
  end.
  - clear w.
    do 7 (apply tells_winner_bind_silent; [emits_auto; reflexivity|intros ? ?]).
    match goal with |- context [bind ?m ?k ?w0] =>
      assert (Huc : tells_winner (fst (fst (m w0))) (snd (m w0)));
        [|destruct (bind_cases m k w0)
            as [(ex & wa & ea & Em & ->)|(uc & wa & ea & r & wb & e2 & Em & Ek & ->)];
          rewrite Em in Huc; simpl in Huc |- *]
    end.
    + match goal with |- context [match ?x with Some _ => _ | None => _ end] =>
        destruct x end; [|reflexivity].
      cbv zeta.
      do 2 (apply tells_winner_bind_silent; [emits_auto; reflexivity|intros ? ?]).
      apply ocr_candidates_tell_winner.
    + exact Huc.
    + assert (E : r = Ok uc /\ e2 = []).
      { revert Ek; unfold log, bind, ret.
        match goal with |- context [match ?x with Some _ => _ | None => _ end] =>
          destruct x end; intros Ek; inversion Ek; auto. }
      destruct E as [-> ->]; simpl; now rewrite app_nil_r.
  - exact Hbody.
  - unfold log, bind, ret in Eh; inversion Eh; subst; simpl.
    rewrite app_nil_r; unfold winner_of.
    destruct (Nat.eqb_spec (List.length (readings e1)) 14); [lia|reflexivity].
Qed.

(** C9.  Without the OCR libraries the OCR attempt gives the empty string
    at once: it makes no call at all, so no screenshot, no image file and no
    recognition.  With them, the value it gives is the winning candidate among
    the 14 texts the engine returned, and the empty string when the engine was
    not asked 14 times or raised.  Whenever the value is empty, as it is when
    the winning candidate is, the next call of [fill_captcha_and_confirm] is
    the prompt to the operator. *)
Theorem operator_fallback (timeout_ms : Z) (w : world) :
  (ocr_imported = false -> ocr_user_code w = (Ok (py ""), w, []))
  /\ exists code w1 e1,
       ocr_user_code w = (Ok code, w1, e1)
       /\ code = winner_of (readings e1)
       /\ (code = py "" ->
           exists rest,
             snd (fill_captcha_and_confirm timeout_ms w)
             = e1 ++ Ev (Input captcha_prompt)
                       (fst (exec (Input captcha_prompt) w1)) :: rest).
Proof.
  split.
  { intros H; unfold ocr_user_code; rewrite H; reflexivity. }
  destruct (ocr_user_code_returns w) as (code & w1 & e1 & E).
  exists code, w1, e1; split; [exact E|].
  split.
  { pose proof (ocr_user_code_tells_winner w) as H; rewrite E in H; exact H. }
  intros ->.
  destruct (ask_operator_empty w1) as (r & w2 & Ex & Eask).
  rewrite Ex; simpl fst.
  unfold fill_captcha_and_confirm.
  erewrite events_bind_ok by reflexivity; simpl app.
  erewrite events_bind_ok by exact E; f_equal.
  destruct r as [typed|e].
  - erewrite events_bind_ok by exact Eask; simpl; eauto.
  - exists []; unfold bind; rewrite Eask; reflexivity.
Qed.

End Operator.

Lemma operator_fallback_witness :
  ocr_user_code (U := ascii_only) (D := willing false (py "AB12") (py "")) tt
  = (Ok (py ""), tt, [])
  /\ exists rest,
       snd (fill_captcha_and_confirm (U := ascii_only)
              (D := willing false (py "AB12") (py "")) 15000 tt)
       = Ev (Input captcha_prompt) (Ok (py "AB12")) :: rest.
Proof.
  destruct (operator_fallback (U := ascii_only)
              (D := willing false (py "AB12") (py "")) 15000 tt)
    as (H0 & code & w1 & e1 & E & _ & H).
  split; [apply H0; reflexivity|].
  rewrite (H0 eq_refl) in E; inversion E; subst.
  destruct (H eq_refl) as (rest & Hrest).
  exists rest; exact Hrest.
Defined.

(** With the libraries present: an engine that reads only punctuation leaves
    every candidate empty and the operator is asked; one that reads "x7" is
    believed and the operator is not asked. *)
Example operator_asked_when_nothing_read :
  existsb is_input
    (snd (fill_captcha_and_confirm (U := ascii_only)
            (D := willing true (py "AB12") (py "?!")) 15000 tt)) = true
  /\ existsb is_input
       (snd (fill_captcha_and_confirm (U := ascii_only)
               (D := willing true (py "AB12") (py "x7")) 15000 tt)) = false.
Proof. split; vm_compute; reflexivity. Qed.

(** ** Choosing the quantity *)

Section Quantity.
Context {U : Unicode}.

Lemma str_eqb_eq (a b : pystr) : str_eqb a b = true <-> a = b.
Proof.
  unfold str_eqb; destruct (list_eq_dec N.eq_dec a b); split; easy.
Qed.

Lemma offers_spec target values texts :
  offers target values texts = true
  <-> In (Some target) values \/ In target texts.
Proof.
  unfold offers; rewrite orb_true_iff, !existsb_exists; split.
  - intros [([v|] & Hin & Hv)|(t & Hin & Ht)]; try discriminate.
    + apply str_eqb_eq in Hv; subst; auto.
    + apply str_eqb_eq in Ht; subst; auto.
  - intros [H|H]; [left; exists (Some target)|right; exists target];
      (split; [exact H|now apply str_eqb_eq]).
Qed.

Lemma select_quantity_asks_for {L : Libs} {D : Driver} (quantity : Z) :
  emits (asks_for (str_of_int quantity)) (select_quantity quantity).
Proof. emits_auto; exact I || reflexivity. Qed.

Lemma bind_run {L : Libs} {D : Driver} A B (m : M A) (k : A -> M B) w a w1 e1 :
  m w = (Ok a, w1, e1) ->
  bind m k w = (fst (fst (k a w1)), snd (fst (k a w1)), e1 ++ snd (k a w1)).
Proof.
  unfold bind; intros ->; destruct (k a w1) as [[? ?] ?]; reflexivity.
Qed.

Lemma select_requests_app {L : Libs} (a b : list event) :
  select_requests (a ++ b) = select_requests a ++ select_requests b.
Proof. apply flat_map_app. Qed.

Lemma select_requests_cons {L : Libs} (e : event) (l : list event) :
  select_requests (e :: l) = select_requests [e] ++ select_requests l.
Proof. change (e :: l) with ([e] ++ l); apply select_requests_app. Qed.

Lemma form_values (page : form_page) (i : nat) (rest : list option_el) :
  forall k,
    (forall j o, nth_error rest j = Some o ->
                 nth_error (nth i (page_selects page) []) (k + j) = Some o) ->
    exists evs,
      map_m (D := form_driver)
        (fun opt => call (GetAttribute opt (py "value")))
        (map (Nth (SubLocator (Nth (Locator (py "select")) i) (py "option")))
             (seq k (List.length rest))) page
      = (Ok (map opt_value rest), page, evs)
      /\ select_requests evs = [].
Proof.
  induction rest as [|o r IH]; intros k H.
  { exists []; split; reflexivity. }
  destruct (IH (S k)) as (evs & E & Q).
  { intros j o' Hj; replace (S k + j)%nat with (k + S j)%nat by lia.
    apply H; exact Hj. }
  pose proof (H 0%nat o eq_refl) as H0; rewrite Nat.add_0_r in H0.
  simpl List.length; simpl seq; simpl map; simpl map_m.
  unfold bind at 1; unfold call at 1; simpl exec; rewrite H0.
  unfold bind; rewrite E; simpl.
  eexists; split; [reflexivity|]; rewrite app_nil_r; exact Q.
Qed.

Lemma form_texts (page : form_page) (i : nat) (rest : list option_el) :
  forall k,
    (forall j o, nth_error rest j = Some o ->
                 nth_error (nth i (page_selects page) []) (k + j) = Some o) ->
    exists evs,
      map_m (D := form_driver)
        (fun opt =>
           try (t <- call (InnerText opt) ;; ret (strip t)) except ret (py ""))
        (map (Nth (SubLocator (Nth (Locator (py "select")) i) (py "option")))
             (seq k (List.length rest))) page
      = (Ok (map (fun o => strip (opt_text o)) rest), page, evs)
      /\ select_requests evs = [].
Proof.
  induction rest as [|o r IH]; intros k H.
  { exists []; split; reflexivity. }
  destruct (IH (S k)) as (evs & E & Q).
  { intros j o' Hj; replace (S k + j)%nat with (k + S j)%nat by lia.
    apply H; exact Hj. }
  pose proof (H 0%nat o eq_refl) as H0; rewrite Nat.add_0_r in H0.
  simpl List.length; simpl seq; simpl map; simpl map_m.
  erewrite bind_run;
    [|unfold try_catch, bind, call, ret; simpl exec; rewrite H0; reflexivity].
  erewrite bind_run by exact E; simpl.
  eexists; split; [reflexivity|]; rewrite app_nil_r; exact Q.
Qed.

Lemma offers_option_is (target : pystr) (options : list option_el) :
  offers target (map opt_value options) (map (fun o => strip (opt_text o)) options)
  = existsb (option_is target) options.
Proof.
  unfold offers; induction options as [|o r IH]; [reflexivity|].
  simpl; rewrite <- IH; unfold option_is.
  destruct (opt_value o) as [v|];
    repeat match goal with |- context [str_eqb ?a ?b] =>
             destruct (str_eqb a b) end;
    repeat match goal with |- context [existsb ?f ?l] =>
             destruct (existsb f l) end; reflexivity.
Qed.

(** One pass of the loop on a page of dropdowns: a dropdown with a matching
    option is asked for it, by value and then if need be by label, and ends the
    loop; any other is left alone. *)
Lemma scan_select_form (page : form_page) (quantity : Z) (i : nat) :
  let target := str_of_int quantity in
  let sel := Nth (Locator (py "select")) i in
  exists r w1 evs,
    scan_select (D := form_driver) quantity sel page = (r, w1, evs)
    /\ if existsb (option_is target) (nth i (page_selects page) [])
       then r <> Ok Next
            /\ exists rest,
                 select_requests evs = (sel, false, target) :: rest
                 /\ Forall (eq (sel, true, target)) rest
       else r = Ok Next /\ w1 = page /\ select_requests evs = [].
Proof.
  cbv zeta; unfold scan_select.
  destruct (form_values page i (nth i (page_selects page) []) 0%nat)
    as (ev & Ev' & Qv); [intros j o H; exact H|].
  destruct (form_texts page i (nth i (page_selects page) []) 0%nat)
    as (et & Et & Qt); [intros j o H; exact H|].
  erewrite bind_run by (unfold all, bind, call, ret; simpl exec; reflexivity).
  cbv beta; erewrite bind_run by exact Ev'.
  cbv beta; erewrite bind_run by exact Et.
  cbv beta; rewrite offers_option_is.
  destruct (existsb _ (nth i (page_selects page) [])).
  - unfold try_catch, bind, call, log, ret; simpl exec.
    destruct (find (opt_matches false _) _); simpl;
      [|destruct (find (opt_matches true _) _); simpl];
      (do 3 eexists; split; [reflexivity|]; split; [discriminate|]);
      rewrite select_requests_cons, !select_requests_app, Qv, Qt; simpl;
      (eexists; split; [reflexivity|]); repeat constructor.
  - simpl; do 3 eexists; split; [reflexivity|].
    rewrite select_requests_cons, !select_requests_app, Qv, Qt; auto.
Qed.

(** The loop over the dropdowns from the [k]-th on. *)
Lemma scan_selects_form (page : form_page) (quantity : Z)
    (selects : list (list option_el)) :
  forall k,
    (forall j, (j < List.length selects)%nat ->
               nth (k + j) (page_selects page) [] = nth j selects []) ->
    let target := str_of_int quantity in
    let asked :=
      select_requests
        (snd (for_each (D := form_driver)
                (map (Nth (Locator (py "select"))) (seq k (List.length selects)))
                (scan_select quantity) page)) in
    match first_offering target selects k with
    | Some i =>
        exists rest,
          asked = (Nth (Locator (py "select")) i, false, target) :: rest
          /\ Forall (eq (Nth (Locator (py "select")) i, true, target)) rest
    | None => asked = []
    end.
Proof.
  cbv zeta; induction selects as [|options r IH]; intros k H; [reflexivity|].
  simpl List.length; simpl seq; simpl map; simpl for_each; simpl first_offering.
  destruct (scan_select_form page quantity k) as (res & w1 & evs & E & Hs).
  cbv zeta in Hs.
  pose proof (H 0%nat ltac:(simpl; lia)) as H0; rewrite Nat.add_0_r in H0.
  simpl in H0; rewrite H0 in Hs.
  destruct (existsb (option_is (str_of_int quantity)) options).
  - destruct Hs as (Hnext & rest & Hreq & Hall).
    exists rest; split; [|exact Hall].
    unfold bind; rewrite E.
    destruct res as [[| |]|e]; simpl; rewrite ?app_nil_r; auto.
    now contradiction Hnext.
  - destruct Hs as (-> & -> & Hq).
    erewrite bind_run by exact E; simpl snd.
    rewrite select_requests_app, Hq; simpl app.
    apply IH; intros j Hj.
    replace (S k + j)%nat with (k + S j)%nat by lia.
    rewrite H by (simpl; lia); reflexivity.
Qed.

Lemma select_quantity_loop {L : Libs} {D : Driver} (quantity : Z) :
  select_quantity quantity
  = if (negb (quantity =? 0)%Z && (quantity >? 0)%Z) then
      try (selects <- all (Locator (py "select")) ;;
           for_each selects (scan_select quantity) ;;
           ret tt)
      except ret tt
    else ret tt.
Proof. reflexivity. Qed.

Lemma select_quantity_form (page : form_page) (quantity : Z) :
  (0 < quantity)%Z ->
  let target := str_of_int quantity in
  let asked :=
    select_requests (snd (select_quantity (D := form_driver) quantity page)) in
  match first_offering target (page_selects page) 0 with
  | Some i =>
      exists rest,
        asked = (Nth (Locator (py "select")) i, false, target) :: rest
        /\ Forall (eq (Nth (Locator (py "select")) i, true, target)) rest
  | None => asked = []
  end.
Proof.
  intros Hq; cbv zeta.
  pose proof (scan_selects_form page quantity (page_selects page) 0%nat
                (fun j _ => eq_refl)) as H; cbv zeta in H.
  assert (E : snd (select_quantity (D := form_driver) quantity page)
              = Ev (Count (Locator (py "select")))
                  (Ok (List.length (page_selects page)))
                :: snd (for_each (D := form_driver)
                          (map (Nth (Locator (py "select")))
                             (seq 0 (List.length (page_selects page))))
                          (scan_select quantity) page)).
  { rewrite select_quantity_loop.
    replace (negb (quantity =? 0)%Z && (quantity >? 0)%Z) with true
      by (symmetry; apply andb_true_iff; split;
          [apply negb_true_iff, Z.eqb_neq|apply Z.gtb_lt]; lia).
    unfold try_catch.
    erewrite bind_run by (unfold all, bind, call, ret; simpl exec; reflexivity).
    cbv beta; unfold bind, ret.
    destruct (for_each (D := form_driver) _ _ page) as [[[f|e] w1] evs]; simpl;
      now rewrite app_nil_r. }
  rewrite E, select_requests_cons; exact H.
Qed.


(** C8.  On every page of dropdowns and for every positive quantity,
    [select_quantity] reads the value attribute and the text of all options
    of a dropdown and asks for an option only in the first dropdown that has
    one whose value or whose stripped text is the decimal form of the
    quantity: there it asks for that string by value, and by label only after
    that; a page where no dropdown has such an option gets no [select_option]
    at all.  On any page whatever, every [select_option] call asks for that
    string; there is no other, positional choice.  On the dropdown with values
    "0", "1", "2" and texts "-", "A", "B" and quantity 1 the first call asks by
    value for "1" and goes through, and the option picked is the one with
    value "1" and text "A". *)
Theorem select_quantity_scans_options :
  (forall (page : form_page) (quantity : Z),
      (0 < quantity)%Z ->
      let target := str_of_int quantity in
      let asked :=
        select_requests (snd (select_quantity (D := form_driver) quantity page)) in
      match first_offering target (page_selects page) 0 with
      | Some i =>
          exists rest,
            asked = (Nth (Locator (py "select")) i, false, target) :: rest
            /\ Forall (eq (Nth (Locator (py "select")) i, true, target)) rest
      | None => asked = []
      end)
  /\ (forall target values texts,
        offers target values texts = true
        <-> In (Some target) values \/ In target texts)
  /\ (forall (L : Libs) (D : Driver) quantity,
        emits (asks_for (str_of_int quantity)) (select_quantity quantity))
  /\ str_of_int 1 = py "1"
  /\ fst (fst (select_quantity (D := form_driver) 1 quantity_page)) = Ok tt
  /\ hd_error
       (filter is_select_option
          (snd (select_quantity (D := form_driver) 1 quantity_page)))
     = Some (Ev (SelectOption (Nth (Locator (py "select")) 0) false (py "1"))
               (Ok tt))
  /\ page_chosen (snd (fst (select_quantity (D := form_driver) 1 quantity_page)))
     = [(0%nat, {| opt_value := Some (py "1"); opt_text := py "A" |})].
Proof.
  split; [exact select_quantity_form|].
  split; [exact offers_spec|].
  split; [intros; apply select_quantity_asks_for|].
  repeat split; vm_compute; reflexivity.
Qed.

End Quantity.

(** Two dropdowns, quantity 2: the first has no matching option and is left
    alone; the second has one by its text " 2 ", and is asked by value and
    then by label. *)
Lemma select_quantity_scans_options_witness :
  exists rest,
    select_requests
      (snd (select_quantity (U := ascii_only) (D := form_driver) 2
              {| page_selects :=
                   [ [ {| opt_value := Some (py "0"); opt_text := py "-" |} ];
                     [ {| opt_value := Some (py "a"); opt_text := py " 2 " |} ] ];
                 page_chosen := [] |}))
    = (Nth (Locator (py "select")) 1, false, py "2") :: rest
    /\ Forall (eq (Nth (Locator (py "select")) 1, true, py "2")) rest.
Proof.
  exact (proj1 (select_quantity_scans_options (U := ascii_only))
           {| page_selects :=
                [ [ {| opt_value := Some (py "0"); opt_text := py "-" |} ];
                  [ {| opt_value := Some (py "a"); opt_text := py " 2 " |} ] ];
              page_chosen := [] |}
           2%Z eq_refl).
Defined.

(** ** Step 10 on a page where everything works

    The operator types "AB12"; every element is there and every call goes
    through. *)

(** C3 on that page: the first confirmation label is clicked, and the submit
    button of the form is clicked all the same. *)
Lemma form_submitted_after_confirm_click :
  filter clicked
    (snd (fill_captcha_and_confirm (U := ascii_only)
            (D := willing false (py "AB12") (py "")) 15000 tt))
  = [ Ev (Click (First (GetByRole (py "button") (Some (py "確認張數")))) None)
        (Ok tt);
      Ev (Click (First (SubLocator (First (Locator (py "form")))
                          (py "button[type='submit'], input[type='submit']")))
            (Some 800%Z))
        (Ok tt) ].
Proof. vm_compute; reflexivity. Qed.

(** On that page Enter on the captcha field, the confirmation click and the
    submit button all go through, three submissions of the one value. *)
Lemma captcha_submitted_three_times :
  map locator_of
    (filter submitted
       (snd (fill_captcha_and_confirm (U := ascii_only)
               (D := willing false (py "AB12") (py "")) 15000 tt)))
  = [ Some (First (GetByPlaceholder (py "驗證碼")));
      Some (First (GetByRole (py "button") (Some (py "確認張數"))));
      Some (First (SubLocator (First (Locator (py "form")))
                     (py "button[type='submit'], input[type='submit']"))) ]
  /\ tally filled
       (snd (fill_captcha_and_confirm (U := ascii_only)
               (D := willing false (py "AB12") (py "")) 15000 tt)) = 1%nat.
Proof. split; vm_compute; reflexivity. Qed.

(** C6 as stated fails, and not through the form alone: on a page without any
    form, where everything else works, Enter on the captcha field goes through
    and so does the click on the first confirmation label, two submissions of
    the one value. *)
Lemma captcha_submitted_twice_without_form :
  map locator_of
    (filter submitted
       (snd (fill_captcha_and_confirm (U := ascii_only)
               (D := picky on_form (py "AB12")) 15000 tt)))
  = [ Some (First (GetByPlaceholder (py "驗證碼")));
      Some (First (GetByRole (py "button") (Some (py "確認張數")))) ]
  /\ ~ at_most submitted 1
        (fill_captcha_and_confirm (U := ascii_only)
           (D := picky on_form (py "AB12")) 15000).
Proof.
  split; [vm_compute; reflexivity|].
  intros H; specialize (H tt); vm_compute in H; lia.
Qed.

(** The same step on a page with no confirmation control at all but a form:
    the three tiers find nothing and the form is submitted by script. *)
Example form_submitted_without_labels :
  fst (fst (confirm (D := bare_form) None tt)) = Ok tt
  /\ filter submitted (snd (confirm (D := bare_form) None tt))
     = [ Ev (Evaluate
               (py "(f)=>{try{f.requestSubmit?f.requestSubmit():f.submit()}catch(e){}}")
               (Some (First (Locator (py "form")))))
           (Ok tt) ].
Proof. split; vm_compute; reflexivity. Qed.

(** ** At most one fill, at most one click in the confirmation tiers *)

Section AtMostOnce.
Context {U : Unicode} {L : Libs} {D : Driver}.
Variable p : event -> bool.

Lemma at_most_find_m X (hit : X -> M bool) (xs : list X) :
  (forall x, at_most p 1 (hit x)) ->
  (forall x w, fst (fst (hit x w)) <> Ok true -> tally p (snd (hit x w)) = 0%nat) ->
  forall w,
    (tally p (snd (find_m hit xs w)) <= 1)%nat
    /\ (fst (fst (find_m hit xs w)) = Ok None ->
        tally p (snd (find_m hit xs w)) = 0%nat).
Proof.
  intros H1 H0; induction xs as [|x r IH]; intros w; simpl.
  { unfold tally; simpl; split; auto. }
  match goal with |- context [bind ?m ?k w] =>
    destruct (bind_cases m k w)
      as [(e & w1 & e1 & Em & ->)|(b & w1 & e1 & r' & w2 & e2 & Em & Ek & ->)]
  end; simpl.
  - split; [|discriminate].
    specialize (H1 x w); now rewrite Em in H1.
  - destruct b.
    + inversion Ek; subst; rewrite app_nil_r.
      split; [|discriminate].
      specialize (H1 x w); now rewrite Em in H1.
    + specialize (H0 x w); rewrite Em in H0; simpl in H0.
      specialize (IH w1); rewrite Ek in IH; simpl in IH.
      rewrite tally_app, H0 by discriminate; exact IH.
Qed.

Lemma at_most_for_each_break X (body : X -> M flow) (xs : list X) :
  (forall x, at_most p 1 (body x)) ->
  (forall x w, fst (fst (body x w)) = Ok Next -> tally p (snd (body x w)) = 0%nat) ->
  forall w,
    (tally p (snd (for_each xs body w)) <= 1)%nat
    /\ (fst (fst (for_each xs body w)) = Ok Next ->
        tally p (snd (for_each xs body w)) = 0%nat).
Proof.
  intros H1 H0; induction xs as [|x r IH]; intros w; simpl.
  { unfold tally; simpl; split; auto. }
  match goal with |- context [bind ?m ?k w] =>
    destruct (bind_cases m k w)
      as [(e & w1 & e1 & Em & ->)|(f & w1 & e1 & r' & w2 & e2 & Em & Ek & ->)]
  end; simpl.
  - split; [|discriminate].
    specialize (H1 x w); now rewrite Em in H1.
  - destruct f.
    + specialize (H0 x w); rewrite Em in H0; simpl in H0.
      specialize (IH w1); rewrite Ek in IH; simpl in IH.
      rewrite tally_app, H0 by reflexivity; exact IH.
    + inversion Ek; subst; rewrite app_nil_r.
      split; [|discriminate].
      specialize (H1 x w); now rewrite Em in H1.
    + inversion Ek; subst; rewrite app_nil_r.
      split; [|discriminate].
      specialize (H1 x w); now rewrite Em in H1.
Qed.

End AtMostOnce.

(** Runs the calls of a straight-line computation one after the other. *)
Ltac run_calls :=
  repeat match goal with
         | |- context [exec ?c ?w] => destruct (exec c w) as [[?|?] ?]; simpl
         end.

Section Submission.
Context {U : Unicode} {L : Libs} {D : Driver}.

Lemma fill_field_at_most_once (user_code : pystr) (target : locator) :
  let hit :=
    try (call (ScrollIntoView target) ;;
         call (Fill target user_code (Some 800%Z)) ;;
         ret true)
    except ret false in
  at_most filled 1 hit
  /\ forall w, fst (fst (hit w)) <> Ok true -> tally filled (snd (hit w)) = 0%nat.
Proof.
  cbv zeta; split; intros w; unfold try_catch, bind, call, ret, tally;
    run_calls; auto; intros H; now contradiction H.
Qed.

Lemma fill_captcha_at_most_once (user_code : pystr) :
  at_most filled 1 (fill_captcha user_code).
Proof.
  unfold fill_captcha; destruct (truthy user_code);
    [|apply at_most_silent, emits_ret].
  intros w.
  match goal with |- context [bind (find_m ?hit ?xs) ?k w] =>
    destruct (@at_most_find_m L D filled _ hit xs
                (fun x => proj1 (fill_field_at_most_once user_code (First x)))
                (fun x => proj2 (fill_field_at_most_once user_code (First x))) w)
      as [Hle Hnone];
    destruct (bind_cases (find_m hit xs) k w)
      as [(e & w1 & e1 & Em & ->)|(f & w1 & e1 & r' & w2 & e2 & Em & Ek & ->)]
  end; rewrite Em in *; simpl in *; [exact Hle|].
  destruct f as [found|].
  - inversion Ek; subst; now rewrite app_nil_r.
  - rewrite tally_app, Hnone by reflexivity; simpl.
    revert Ek; unfold try_catch, bind, call, ret, tally.
    destruct (exec (ScrollIntoView _) w1) as [[[]|?] ?]; simpl;
      [destruct (exec (Fill _ _ _) _) as [[[]|?] ?]; simpl|];
      intros Ek; inversion Ek; subst; simpl; auto.
Qed.

(** X21.  Whatever the page answers, the captcha goes into at most one
    field: the loop over the four descriptions stops at the first fill that
    goes through, and the first input of the page is tried only when none
    did. *)
Lemma captcha_filled_at_most_once (timeout_ms : Z) :
  at_most filled 1 (fill_captcha_and_confirm timeout_ms).
Proof.
  unfold fill_captcha_and_confirm.
  apply at_most_bind with (a := 0%nat) (b := 1%nat);
    [apply at_most_silent, emits_log|intros _].
  apply at_most_bind with (a := 0%nat) (b := 1%nat);
    [apply at_most_silent; emits_auto; reflexivity|intros code].
  apply at_most_bind with (a := 0%nat) (b := 1%nat);
    [apply at_most_silent; emits_auto; reflexivity|intros code'].
  apply at_most_bind with (a := 1%nat) (b := 0%nat);
    [apply fill_captcha_at_most_once|intros field].
  apply at_most_silent; emits_auto; reflexivity.
Qed.

Lemma try_label_at_most_once (label : pystr) :
  let body :=
    clicked <- click_if_visible label 1000 ;;
    if clicked then log (py "已點擊：" ++ label) ;; ret Break else ret Next in
  at_most clicked 1 body
  /\ forall w, fst (fst (body w)) = Ok Next -> tally clicked (snd (body w)) = 0%nat.
Proof.
  cbv zeta; split; intros w;
    unfold click_if_visible, try_catch, bind, call, ret, log, tally;
    run_calls; auto; discriminate.
Qed.

(** As long as the prints return: in the confirmation tiers one to three
    (the labels, the text selector, the keyword scan) at most one click goes
    through, so a later tier is tried only when the earlier ones clicked
    nothing. *)
Lemma click_confirm_at_most_one_click : at_most clicked 1 click_confirm.
Proof.
  unfold click_confirm; intros w.
  match goal with |- context [bind (for_each ?xs ?body) ?k w] =>
    destruct (@at_most_for_each_break L D clicked _ body xs
                (fun x => proj1 (try_label_at_most_once x))
                (fun x => proj2 (try_label_at_most_once x)) w)
      as [Hle Hnext];
    destruct (bind_cases (for_each xs body) k w)
      as [(e & w1 & e1 & Em & ->)|(f & w1 & e1 & r' & w2 & e2 & Em & Ek & ->)]
  end; rewrite Em in *; simpl in *; [exact Hle|].
  destruct f.
  - rewrite tally_app, Hnext by reflexivity; simpl.
    revert Ek; unfold try_catch, bind, call, ret, log, tally.
    run_calls; intros Ek; inversion Ek; subst; simpl; auto.
  - inversion Ek; subst; now rewrite app_nil_r.
  - inversion Ek; subst; now rewrite app_nil_r.
Qed.

End Submission.

(** * Further properties *)

(** ** Digits and candidates *)

Section MoreStrings.
Context {U : Unicode}.

(** X1.  [normalize_digits] keeps digits only, leaves a string of digits as
    it is, never lengthens, and works piece by piece on a concatenation. *)
Theorem normalize_digits_keeps_digits (a b : pystr) :
  Forall (fun c => isdigit c = true) (normalize_digits a)
  /\ (forallb isdigit a = true -> normalize_digits a = a)
  /\ (List.length (normalize_digits a) <= List.length a)%nat
  /\ normalize_digits (a ++ b) = normalize_digits a ++ normalize_digits b.
Proof.
  unfold normalize_digits; repeat split.
  - apply Forall_forall; intros c Hc; now apply filter_In in Hc.
  - induction a as [|c a IH]; simpl; [reflexivity|].
    intros H; apply andb_true_iff in H as [Hc Ha].
    rewrite Hc, IH by assumption; reflexivity.
  - apply filter_length_le.
  - apply filter_app.
Qed.

End MoreStrings.

Lemma normalize_digits_keeps_digits_witness :
  normalize_digits (U := ascii_only) (py "2800") = py "2800".
Proof.
  apply (proj1 (proj2 (normalize_digits_keeps_digits (U := ascii_only)
                         (py "2800") (py "")))).
  reflexivity.
Defined.

Lemma key_le_antisym (a b : pystr) : key_le a b -> key_le b a -> a = b.
Proof.
  unfold key_le; rewrite (key_compare_antisym a b); intros Hab Hba.
  apply key_compare_eq; destruct (key_compare a b); simpl in *; congruence.
Qed.

Lemma select_candidate_greatest (candidates : list pystr) :
  candidates <> [] ->
  In (select_candidate candidates) candidates
  /\ forall c, In c candidates -> key_le c (select_candidate candidates).
Proof.
  destruct candidates as [|x r]; [easy|intros _; simpl].
  destruct (max_from_spec r x) as (Hin & Hle & Hall).
  split; [destruct Hin as [->|Hin]; auto|].
  intros c [<-|Hc]; auto.
Qed.

(** X2.  The winner is the empty string only when there is nothing else:
    [max(candidates, key=..., default="")] is empty exactly when every
    candidate is. *)
Theorem select_candidate_empty_iff (candidates : list pystr) :
  select_candidate candidates = [] <-> Forall (fun c => c = []) candidates.
Proof.
  split.
  - intros Hw; destruct candidates as [|x r]; [constructor|].
    destruct (@select_candidate_greatest (x :: r)) as [_ Hall]; [discriminate|].
    apply Forall_forall; intros c Hc.
    destruct (key_le_length (Hall c Hc)) as [Hlen _].
    rewrite Hw in Hlen; destruct c; simpl in Hlen; [reflexivity|lia].
  - destruct candidates as [|x r]; [reflexivity|].
    intros H; inversion H; subst; simpl; now apply max_from_all_empty.
Qed.

(** X3.  The winner does not depend on the order in which the candidates
    were read: any rearrangement of the list has the same winner. *)
Theorem select_candidate_order_free (candidates candidates' : list pystr) :
  Permutation candidates candidates' ->
  select_candidate candidates = select_candidate candidates'.
Proof.
  intros Hp.
  destruct candidates as [|x r].
  { apply Permutation_nil in Hp; subst; reflexivity. }
  assert (Hne : candidates' <> [])
    by (intros ->; apply Permutation_sym, Permutation_nil in Hp; discriminate).
  destruct (@select_candidate_greatest (x :: r)) as [Hin Hall]; [discriminate|].
  destruct (select_candidate_greatest Hne) as [Hin' Hall'].
  apply key_le_antisym.
  - apply Hall'; eapply Permutation_in; eauto.
  - apply Hall; eapply Permutation_in; [apply Permutation_sym|]; eauto.
Qed.

Lemma select_candidate_order_free_witness :
  select_candidate [py "ab"; py "zz"; py "a1b"]
  = select_candidate [py "a1b"; py "ab"; py "zz"].
Proof.
  apply select_candidate_order_free.
  apply perm_trans with (py "ab" :: py "a1b" :: [py "zz"]).
  - apply perm_skip, perm_swap.
  - apply perm_swap.
Defined.

(** ** Where exceptions can come from *)

Section Raising.
Context {L : Libs} {D : Driver}.
Variable P : exn -> event -> Prop.

Lemma raises_at_ret A (a : A) : raises_at P (ret a).
Proof. intros w e w1 evs E; discriminate. Qed.

Lemma raises_at_log msg : raises_at P (log msg).
Proof. apply raises_at_ret. Qed.

Lemma raises_at_call A (c : pageE A) :
  (forall e, P e (Ev c (Raise e))) -> raises_at P (call c).
Proof.
  intros H w e w1 evs E; unfold call in E.
  destruct (exec c w) as [r w']; inversion E; subst.
  exists [], (Ev c (Raise e)); auto.
Qed.

Lemma raises_at_bind A B (m : M A) (k : A -> M B) :
  raises_at P m -> (forall a, raises_at P (k a)) -> raises_at P (bind m k).
Proof.
  intros Hm Hk w e w2 evs E.
  destruct (bind_cases m k w) as [(e' & w1 & e1 & Em & E')
                                 |(a & w1 & e1 & r & w2' & e2 & Em & Ek & E')];
    rewrite E' in E; inversion E; subst.
  - eapply Hm; eauto.
  - destruct (Hk a _ _ _ _ Ek) as (pre & ev & -> & Hev).
    exists (e1 ++ pre), ev; now rewrite app_assoc.
Qed.

Lemma raises_at_try A (m h : M A) : raises_at P h -> raises_at P (try_catch m h).
Proof.
  intros Hh w e w2 evs E.
  destruct (try_cases m h w) as [(a & w1 & e1 & Em & E')
                                |(e' & w1 & e1 & r & w2' & e2 & Em & Eh & E')];
    rewrite E' in E; inversion E; subst.
  destruct (Hh _ _ _ _ Eh) as (pre & ev & -> & Hev).
  exists (e1 ++ pre), ev; now rewrite app_assoc.
Qed.

Lemma raises_at_for_each X (xs : list X) (body : X -> M flow) :
  (forall x, raises_at P (body x)) -> raises_at P (for_each xs body).
Proof.
  intros H; induction xs as [|x r IH]; simpl; [apply raises_at_ret|].
  apply raises_at_bind; [apply H|].
  intros [| |]; auto using raises_at_ret.
Qed.

Lemma raises_at_map_m X Y (f : X -> M Y) (xs : list X) :
  (forall x, raises_at P (f x)) -> raises_at P (map_m f xs).
Proof.
  intros H; induction xs as [|x r IH]; simpl; [apply raises_at_ret|].
  apply raises_at_bind; [apply H|intros y].
  apply raises_at_bind; [apply IH|intros ys; apply raises_at_ret].
Qed.

Lemma raises_at_fold_m X S (f : S -> X -> M S) (xs : list X) :
  (forall s x, raises_at P (f s x)) -> forall s, raises_at P (fold_m f xs s).
Proof.
  intros H; induction xs as [|x r IH]; intros s; simpl; [apply raises_at_ret|].
  apply raises_at_bind; [apply H|auto].
Qed.

Lemma raises_at_find_m X (hit : X -> M bool) (xs : list X) :
  (forall x, raises_at P (hit x)) -> raises_at P (find_m hit xs).
Proof.
  intros H; induction xs as [|x r IH]; simpl; [apply raises_at_ret|].
  apply raises_at_bind; [apply H|intros [|]; auto using raises_at_ret].
Qed.

Lemma raises_at_all l :
  (forall e, P e (Ev (Count l) (Raise e))) -> raises_at P (all l).
Proof.
  intros H; apply raises_at_bind; [now apply raises_at_call|].
  intros; apply raises_at_ret.
Qed.

Lemma raises_at_click_if_visible text timeout_ms :
  raises_at P (click_if_visible text timeout_ms).
Proof.
  unfold click_if_visible; do 2 apply raises_at_try; apply raises_at_ret.
Qed.

End Raising.

Lemma never_raises_of {L : Libs} {D : Driver} A (m : M A) :
  raises_at (fun _ _ => False) m -> never_raises m.
Proof.
  intros H w; destruct (m w) as [[[a|e] w1] evs] eqn:E; [eauto|].
  destruct (H _ _ _ _ E) as (_ & _ & _ & []).
Qed.

(** Breaks a goal [raises_at P m] down along the structure of [m]; a [try]
    hides its body, and what is left are the calls outside every [try]. *)
Ltac raises_step :=
  lazymatch goal with
  | |- raises_at _ (bind _ _) => apply raises_at_bind; [|intros]
  | |- raises_at _ (try_catch _ _) => apply raises_at_try
  | |- raises_at _ (ret _) => apply raises_at_ret
  | |- raises_at _ (log _) => apply raises_at_log
  | |- raises_at _ (call _) => apply raises_at_call; intros
  | |- raises_at _ (all _) => apply raises_at_all; intros
  | |- raises_at _ (for_each _ _) => apply raises_at_for_each; intros
  | |- raises_at _ (map_m _ _) => apply raises_at_map_m; intros
  | |- raises_at _ (fold_m _ _ _) => apply raises_at_fold_m; intros
  | |- raises_at _ (find_m _ _) => apply raises_at_find_m; intros
  | |- raises_at _ (click_if_visible _ _) => apply raises_at_click_if_visible
  | |- raises_at _ (match ?x with _ => _ end) => destruct x
  | |- raises_at _ (if ?b then _ else _) => destruct b
  | |- raises_at _ (let _ := _ in _) => cbv zeta
  | |- raises_at _ _ => progress autounfold with py_prog
  end.

Ltac raises_auto := repeat raises_step.

(** Runs a straight-line computation, branching on every answer. *)
Ltac run_all :=
  repeat match goal with
         | |- context [exec ?c ?w] => destruct (exec c w) as [[?|?] ?]; simpl
         | |- context [if negb ?b then _ else _] => destruct b; simpl
         | |- context [if ?b then _ else _] => destruct b; simpl
         end.

(** ** The small steps *)

Section SmallSteps.
Context {U : Unicode} {L : Libs} {D : Driver}.

(** X4.  [save_debug] never raises: a failed screenshot, read or write is
    swallowed.  It reads the markup at most once and asks for the file [name]
    with ".html" exactly when [page.content()] returned, with exactly that
    text; so a markup file that got written holds what the page gave. *)
Theorem save_debug_best_effort (name : pystr) (w : world) :
  exists w' evs,
    save_debug name w = (Ok tt, w', evs)
    /\ writes_asked evs
       = map (fun html => (name ++ py ".html", html)) (contents_read evs)
    /\ (files_saved evs = [] \/ files_saved evs = writes_asked evs)
    /\ (List.length (contents_read evs) <= 1)%nat.
Proof.
  unfold save_debug, try_catch, bind, call, ret.
  run_all; repeat match goal with u : unit |- _ => destruct u end;
    do 2 eexists; (split; [reflexivity|]); simpl; auto.
Qed.

Lemma click_if_visible_tally text timeout_ms w :
  tally clicked (snd (click_if_visible text timeout_ms w))
  = if existsb clicked (snd (click_if_visible text timeout_ms w))
    then 1%nat else 0%nat.
Proof.
  unfold click_if_visible, try_catch, bind, call, ret, tally.
  run_all; reflexivity.
Qed.

(** X5.  [agree_terms_if_present] never raises: each of its three ways to
    tick the consent box sits in a [try] of its own.  It asks for a tick at
    most five times: once on the checkbox found by role, once per label, and
    once on the checkbox before the consent text. *)
Theorem agree_terms_never_raises :
  never_raises agree_terms_if_present
  /\ at_most is_check 5 agree_terms_if_present.
Proof.
  split.
  - apply never_raises_of; raises_auto.
  - intros w.
    unfold agree_terms_if_present, for_each, try_catch, bind, call, ret, log, tally.
    run_all; lia.
Qed.

(** X6.  [time.sleep] is never asked for a negative time: whatever the
    number of seconds, also a negative one, both countdown waits are clamped
    at zero. *)
Theorem sleeps_are_clamped (seconds timeout_ms : Z) :
  emits sleeps_forward (start_countdown_and_buy seconds timeout_ms)
  /\ emits sleeps_forward (wait_for_user_prep_and_countdown seconds).
Proof.
  split; emits_auto; simpl; try exact I; unfold Qle; simpl; lia.
Qed.

Lemma once_ret (p : event -> bool) (f : flow) : once_unless_next p (ret f).
Proof. intros w; unfold tally; simpl; auto. Qed.

Lemma once_bind_silent (p : event -> bool) A (m : M A) (k : A -> M flow) :
  emits (fun e => p e = false) m ->
  (forall a, once_unless_next p (k a)) ->
  once_unless_next p (bind m k).
Proof.
  intros Hm Hk w.
  assert (H0 : (tally p (snd (m w)) <= 0)%nat) by (now apply at_most_silent).
  destruct (bind_cases m k w) as [(e & w1 & e1 & Em & ->)
                                 |(a & w1 & e1 & r & w2 & e2 & Em & Ek & ->)];
    rewrite Em in H0; simpl in *.
  - split; [lia|discriminate].
  - destruct (Hk a w1) as [Hle Hnext]; rewrite Ek in *; simpl in *.
    rewrite tally_app; split; [lia|intros E; specialize (Hnext E); lia].
Qed.

Lemma once_for_each (p : event -> bool) X (body : X -> M flow) (xs : list X) :
  (forall x, once_unless_next p (body x)) -> once_unless_next p (for_each xs body).
Proof.
  intros H w; apply at_most_for_each_break.
  - intros x w'; apply (H x w').
  - intros x w'; apply (H x w').
Qed.

(** X7.  [start_countdown_and_buy] never raises.  It fills at most one input
    box, the first that looks like the seconds field, and what it fills in is
    the decimal form of [seconds]. *)
Theorem start_countdown_fills_once (seconds timeout_ms : Z) :
  never_raises (start_countdown_and_buy seconds timeout_ms)
  /\ at_most filled 1 (start_countdown_and_buy seconds timeout_ms)
  /\ emits (fun e => match e with
                     | Ev (Fill _ value _) _ => value = str_of_int seconds
                     | _ => True
                     end)
       (start_countdown_and_buy seconds timeout_ms).
Proof.
  split; [apply never_raises_of; raises_auto|].
  split; [|emits_auto; exact I || reflexivity].
  unfold start_countdown_and_buy.
  apply at_most_try with (a := 1%nat) (b := 0%nat);
    [|apply at_most_silent, emits_ret].
  apply at_most_bind with (a := 0%nat) (b := 1%nat);
    [apply at_most_silent, emits_log|intros _].
  apply at_most_bind with (a := 0%nat) (b := 1%nat);
    [apply at_most_silent; emits_auto; reflexivity|intros inputs].
  apply at_most_bind with (a := 1%nat) (b := 0%nat);
    [|intros f; apply at_most_silent; emits_auto; reflexivity].
  intros w; apply once_for_each; clear w; intros input_box.
  apply once_bind_silent; [emits_auto; reflexivity|intros placeholder].
  apply once_bind_silent; [emits_auto; reflexivity|intros input_type].
  destruct (is_seconds_input input_type placeholder); [|apply once_ret].
  intros w; unfold bind, call, ret, tally; run_calls; split; auto; discriminate.
Qed.


(** X11.  With no price and no positive quantity nothing is looked for:
    the only call of [select_price_and_quantity] is the pause of 300 ms. *)
Theorem select_nothing_asked (quantity timeout_ms : Z) (w : world) :
  (quantity <= 0)%Z ->
  snd (select_price_and_quantity (py "") quantity timeout_ms w)
  = [Ev (WaitForTimeout 300) (fst (exec (WaitForTimeout 300) w))].
Proof.
  intros Hq.
  unfold select_price_and_quantity, select_price, select_quantity, log.
  change (truthy (py "")) with false; cbv iota.
  replace (negb (quantity =? 0)%Z && (quantity >? 0)%Z) with false
    by (symmetry; apply andb_false_iff; right; rewrite Z.gtb_ltb;
        apply Z.ltb_ge; lia).
  unfold bind, call, ret.
  destruct (exec (WaitForTimeout 300) w) as [[[]|e] w1]; reflexivity.
Qed.

End SmallSteps.

Lemma select_nothing_asked_witness :
  snd (select_price_and_quantity (U := ascii_only) (D := barren (py ""))
         (py "") 0 15000 tt)
  = [Ev (WaitForTimeout 300) (Raise TimeoutError)].
Proof.
  apply (select_nothing_asked (U := ascii_only) (D := barren (py ""))); lia.
Defined.

(** ** The captcha step as a whole *)

Section CaptchaStep.
Context {U : Unicode} {L : Libs} {D : Driver}.

(** X14.  The OCR attempt only looks: it makes no click, tick, fill, key
    press, option choice or script call, and it never prompts the operator. *)
Theorem ocr_only_looks :
  emits (fun e => acts e = false /\ is_input e = false) ocr_user_code.
Proof. emits_auto; split; reflexivity. Qed.

Lemma keep_alnum_alnum (raw : pystr) :
  Forall (fun c => isalnum c = true) (keep_alnum raw).
Proof.
  apply Forall_forall; intros c Hc; now apply filter_In in Hc.
Qed.

Lemma select_candidate_keeps (Q : pystr -> Prop) (candidates : list pystr) :
  Q [] -> Forall Q candidates -> Q (select_candidate candidates).
Proof.
  intros H0 Hall; destruct candidates as [|x r]; [exact H0|].
  destruct (@select_candidate_greatest (x :: r)) as [Hin _]; [discriminate|].
  rewrite Forall_forall in Hall; auto.
Qed.

Lemma returns_ret A (Q : A -> Prop) (a : A) : Q a -> returns Q (ret a).
Proof. intros H w a' w1 evs E; inversion E; subst; exact H. Qed.

Lemma returns_bind A B (R : A -> Prop) (Q : B -> Prop) (m : M A) (k : A -> M B) :
  returns R m -> (forall a, R a -> returns Q (k a)) -> returns Q (bind m k).
Proof.
  intros Hm Hk w b w2 evs E.
  destruct (bind_cases m k w) as [(e' & w1 & e1 & Em & E')
                                 |(a & w1 & e1 & r & w2' & e2 & Em & Ek & E')];
    rewrite E' in E; inversion E; subst.
  eapply Hk; eauto.
Qed.

Lemma returns_any A (m : M A) : returns (fun _ => True) m.
Proof. intros w a w1 evs _; exact I. Qed.

Lemma returns_try A (Q : A -> Prop) (m h : M A) :
  returns Q m -> returns Q h -> returns Q (try_catch m h).
Proof.
  intros Hm Hh w a w2 evs E.
  destruct (try_cases m h w) as [(a' & w1 & e1 & Em & E')
                                |(e' & w1 & e1 & r & w2' & e2 & Em & Eh & E')];
    rewrite E' in E; inversion E; subst; eauto.
Qed.

Lemma ocr_candidates_alnum (base : gray) :
  returns (Forall (Forall (fun c => isalnum c = true))) (ocr_candidates base).
Proof.
  intros w cands w1 evs E.
  destruct (read_angles base thresholds angles [] w)
    as [(e & Hr & _)|(raws & _ & Hr & _)]; cbv zeta in Hr;
    change (fold_m _ angles [] w) with (ocr_candidates base w) in Hr;
    rewrite E in Hr; simpl in Hr; [discriminate|].
  inversion Hr; subst.
  apply Forall_forall; intros c Hc; apply in_map_iff in Hc as (raw & <- & _).
  apply keep_alnum_alnum.
Qed.

(** X15.  What OCR hands on consists of letters and digits only: every
    candidate does, so the winner does, and so does the value the OCR attempt
    ends with (which may be empty). *)
Theorem ocr_user_code_alnum (base : gray) :
  returns (Forall (Forall (fun c => isalnum c = true))) (ocr_candidates base)
  /\ returns (Forall (fun c => isalnum c = true)) ocr_user_code.
Proof.
  split; [apply ocr_candidates_alnum|].
  unfold ocr_user_code; destruct ocr_imported; [|now apply returns_ret].
  apply returns_try; [|apply returns_bind with (R := fun _ => True);
                        [apply returns_any|intros; now apply returns_ret]].
  do 7 (apply returns_bind with (R := fun _ => True);
        [apply returns_any|intros ? _]).
  apply returns_bind with (R := Forall (fun c => isalnum c = true)).
  - match goal with |- returns _ (match ?x with _ => _ end) => destruct x end;
      [|apply returns_bind with (R := fun _ => True);
        [apply returns_any|intros; now apply returns_ret]].
    cbv zeta.
    do 2 (apply returns_bind with (R := fun _ => True);
          [apply returns_any|intros ? _]).
    apply returns_bind with (R := Forall (Forall (fun c => isalnum c = true)));
      [apply ocr_candidates_alnum|intros candidates Hc].
    apply returns_bind with (R := fun _ => True); [apply returns_any|intros ? _].
    apply returns_ret, select_candidate_keeps; [constructor|exact Hc].
  - intros user_code Hu.
    apply returns_bind with (R := fun _ => True); [apply returns_any|intros ? _].
    now apply returns_ret.
Qed.

End CaptchaStep.

Lemma ocr_user_code_alnum_witness :
  Forall (fun c => isalnum (U := ascii_only) c = true) (py "x7").
Proof.
  apply (proj2 (ocr_user_code_alnum (U := ascii_only)
                  (D := willing true (py "AB12") (py "x-7")) [])
           tt (py "x7") tt
           (snd (ocr_user_code (U := ascii_only)
                   (D := willing true (py "AB12") (py "x-7")) tt))).
  vm_compute; reflexivity.
Defined.

(** ** Enter and the filled field *)

Section EnterKey.
Context {U : Unicode} {L : Libs} {D : Driver}.




End EnterKey.

(** ** One value, one field, one Enter *)

Section OneCaptcha.
Context {U : Unicode} {L : Libs} {D : Driver}.

Lemma fill_captcha_field (user_code : pystr) w field w1 evs :
  fill_captcha user_code w = (Ok (Some field), w1, evs) ->
  In (Some field) (map filled_target evs).
Proof.
  unfold fill_captcha.
  destruct (truthy user_code); [|intros E; inversion E].
  unfold input_candidates, find_m, try_catch, bind, call, ret.
  run_calls; intros E; inversion E; subst; simpl; auto 20.
Qed.

Lemma enter_only_on (captcha_focused : option locator) :
  emits (fun e => match press_target e with
                  | Some l => captcha_focused = Some l
                  | None => True
                  end)
    (confirm captcha_focused).
Proof.
  unfold confirm; destruct captcha_focused; emits_auto; exact I || reflexivity.
Qed.

Lemma no_press_targets A (m : M A) :
  emits (fun e => press_target e = None) m ->
  forall w l, ~ In (Some l) (map press_target (snd (m w))).
Proof.
  intros H w l Hin; specialize (H w); rewrite Forall_forall in H.
  apply in_map_iff in Hin as (e & He & Hin).
  rewrite (H e Hin) in He; discriminate.
Qed.

Lemma enter_where_filled_bind_silent A B (m : M A) (k : A -> M B) :
  emits (fun e => press_target e = None) m ->
  (forall a w, enter_where_filled (snd (k a w))) ->
  forall w, enter_where_filled (snd (bind m k w)).
Proof.
  intros Hm Hk w l; pose proof (no_press_targets Hm w l) as Q.
  destruct (bind_cases m k w) as [(e & w1 & e1 & Em & ->)
                                 |(a & w1 & e1 & r & w2 & e2 & Em & Ek & ->)];
    rewrite Em in Q; simpl in *; [intros H; now contradiction Q|].
  rewrite !map_app, !in_app_iff; intros [H|H]; [now contradiction Q|].
  right; specialize (Hk a w1 l); rewrite Ek in Hk; auto.
Qed.

Lemma agree_terms_returns : never_raises agree_terms_if_present.
Proof. apply never_raises_of; raises_auto. Qed.

Lemma click_confirm_opens :
  opens_with (WaitFor (First (GetByRole (py "button") (Some (py "確認張數"))))
                (py "visible") 1000)
    click_confirm.
Proof.
  unfold click_confirm, confirm_labels; simpl for_each; unfold click_if_visible.
  repeat first [apply opens_with_bind | apply opens_with_try].
  apply opens_with_call.
Qed.

(** Lines 392-413: Enter on the field, then the labels, whatever Enter did. *)
Lemma confirm_enter_then_labels (field : locator) w :
  exists pre r post,
    snd (confirm (Some field) w) = pre ++ Ev (Press field (py "Enter")) r :: post
    /\ existsb looks_for_confirm post = true.
Proof.
  unfold confirm.
  erewrite events_bind_ok by reflexivity; simpl app.
  destruct (agree_terms_returns w) as (a & w1 & e1 & Ea).
  erewrite events_bind_ok by exact Ea.
  match goal with |- context [bind (try_catch ?m ?h) ?k w1] =>
    assert (Ht : exists w2 r tail,
               try_catch m h w1 = (Ok tt, w2, Ev (Press field (py "Enter")) r :: tail))
      by (unfold try_catch, bind, call, log, ret; run_calls; eauto);
    destruct Ht as (w2 & r & tail & Et);
    assert (Hk : exists r' rest,
               snd (k tt w2)
               = Ev (WaitFor (First (GetByRole (py "button") (Some (py "確認張數"))))
                       (py "visible") 1000) r' :: rest)
      by (apply opens_with_bind, click_confirm_opens);
    destruct Hk as (r' & rest & Ek)
  end.
  erewrite events_bind_ok by exact Et; rewrite Ek.
  exists e1, r, (tail ++ Ev (WaitFor (First (GetByRole (py "button")
                                               (Some (py "確認張數"))))
                              (py "visible") 1000) r' :: rest).
  split; [reflexivity|].
  rewrite existsb_app; apply orb_true_iff; right.
  apply orb_true_iff; left; vm_compute; reflexivity.
Qed.

Lemma labels_follow_bind_silent A B (m : M A) (k : A -> M B) :
  emits (fun e => is_press e = false) m ->
  (forall a w, labels_follow_enter (snd (k a w))) ->
  forall w, labels_follow_enter (snd (bind m k w)).
Proof.
  intros Hm Hk w; pose proof (emits_quiet _ Hm w) as Q.
  destruct (bind_cases m k w) as [(e & w1 & e1 & Em & ->)
                                 |(a & w1 & e1 & r & w2 & e2 & Em & Ek & ->)];
    rewrite Em in Q; simpl in *; unfold labels_follow_enter.
  - rewrite Q; discriminate.
  - rewrite existsb_app, Q; simpl; intros H.
    specialize (Hk a w1); rewrite Ek in Hk; simpl in Hk.
    destruct (Hk H) as (pre & e & post & -> & He & Hp).
    exists (e1 ++ pre), e, post; rewrite <- app_assoc; auto.
Qed.

(** C6, as the code has it.  Whatever the page answers, the captcha goes
    into at most one field: the loop over the four descriptions stops at the
    first fill that goes through, and the first input of the page is tried
    only when none did.  The value filled in is never empty.  Enter is pressed
    at most once, and only on the field that took the value.  And whenever
    Enter is pressed, the button of the first confirmation label is looked
    for after it: pressing Enter does not end the step. *)
Theorem captcha_entered_once (timeout_ms : Z) :
  at_most filled 1 (fill_captcha_and_confirm timeout_ms)
  /\ emits (fun e => match e with
                     | Ev (Fill _ value _) _ => value <> py ""
                     | _ => True
                     end)
       (fill_captcha_and_confirm timeout_ms)
  /\ at_most is_press 1 (fill_captcha_and_confirm timeout_ms)
  /\ (forall w, enter_where_filled (snd (fill_captcha_and_confirm timeout_ms w)))
  /\ (forall w, labels_follow_enter (snd (fill_captcha_and_confirm timeout_ms w))).
Proof.
  split; [|split; [|split; [|split]]].
  - unfold fill_captcha_and_confirm.
    apply at_most_bind with (a := 0%nat) (b := 1%nat);
      [apply at_most_silent, emits_log|intros _].
    apply at_most_bind with (a := 0%nat) (b := 1%nat);
      [apply at_most_silent; emits_auto; reflexivity|intros code].
    apply at_most_bind with (a := 0%nat) (b := 1%nat);
      [apply at_most_silent; emits_auto; reflexivity|intros code'].
    apply at_most_bind with (a := 1%nat) (b := 0%nat);
      [apply fill_captcha_at_most_once|intros field].
    apply at_most_silent; emits_auto; reflexivity.
  - unfold fill_captcha_and_confirm.
    do 3 (apply emits_bind; [emits_auto; exact I|intros ?]).
    apply emits_bind; [|intros ?; emits_auto; exact I].
    unfold fill_captcha.
    match goal with |- context [truthy ?c] => destruct c end;
      [apply emits_ret|emits_auto; exact I || discriminate].
  - unfold fill_captcha_and_confirm.
    do 4 (apply at_most_bind with (a := 0%nat) (b := 1%nat);
          [apply at_most_silent; emits_auto; reflexivity|intros ?]).
    unfold confirm.
    do 2 (apply at_most_bind with (a := 0%nat) (b := 1%nat);
          [apply at_most_silent; emits_auto; reflexivity|intros ?]).
    apply at_most_bind with (a := 1%nat) (b := 0%nat);
      [|intros ?; apply at_most_silent; emits_auto; reflexivity].
    intros w; unfold try_catch, bind, call, ret, log, tally.
    match goal with |- context [match ?f with Some _ => _ | None => _ end] =>
      destruct f end; run_calls; auto.
  - unfold fill_captcha_and_confirm.
    do 3 (apply enter_where_filled_bind_silent;
          [emits_auto; reflexivity|intros ? ?]).
    intros l.
    match goal with |- context [bind ?m ?k ?w] =>
      assert (Hq : emits (fun e => press_target e = None) m)
        by (emits_auto; reflexivity);
      pose proof (no_press_targets Hq w l) as Q;
      destruct (bind_cases m k w)
        as [(e & wa & ea & Em & ->)|(f & wa & ea & r & wb & eb & Em & Ek & ->)]
    end; rewrite Em in Q; simpl in *; [intros H; now contradiction Q|].
    rewrite !map_app, !in_app_iff; intros [H|H]; [now contradiction Q|].
    left; apply in_map_iff in H as (e & He & Hin).
    pose proof (enter_only_on f wa) as Hc; rewrite Ek in Hc; simpl in Hc.
    rewrite Forall_forall in Hc; specialize (Hc e Hin); rewrite He in Hc.
    subst f; exact (fill_captcha_field _ _ Em).
  - unfold fill_captcha_and_confirm.
    do 4 (apply labels_follow_bind_silent;
          [emits_auto; reflexivity|intros ? ?]).
    match goal with |- labels_follow_enter (snd (confirm ?f ?w)) =>
      destruct f as [field|] end.
    + match goal with |- labels_follow_enter (snd (confirm _ ?w')) =>
        destruct (confirm_enter_then_labels field w') as (pre & r & post & E & H)
      end.
      intros _; exists pre, (Ev (Press field (py "Enter")) r), post.
      split; [exact E|split; [reflexivity|exact H]].
    + assert (Hn : emits (fun e => is_press e = false) (confirm None))
        by (unfold confirm; cbv beta iota; emits_auto; reflexivity).
      intros H; rewrite (emits_quiet _ Hn) in H; discriminate.
Qed.

End OneCaptcha.

Lemma captcha_entered_once_witness :
  In (Some (First (GetByPlaceholder (py "驗證碼"))))
    (map filled_target
       (snd (fill_captcha_and_confirm (U := ascii_only)
               (D := willing false (py "AB12") (py "")) 15000 tt))).
Proof.
  apply (proj1 (proj2 (proj2 (proj2 (captcha_entered_once (U := ascii_only)
                                       (D := willing false (py "AB12") (py ""))
                                       15000)))) tt).
  vm_compute; auto 30.
Defined.

(** ** More on the advance loop *)

Section AdvanceLoopMore.
Context {U : Unicode} {L : Libs} {D : Driver}.

(** X17.  The only exception [navigate_purchase_flow] lets through is one
    raised by the pause of line 540, the [page.wait_for_timeout(400)] that
    follows a click on an action label; every other call is shielded. *)
Theorem navigate_purchase_flow_raises_at (timeout_ms : Z) :
  raises_at (fun e ev => ev = Ev (WaitForTimeout 400) (Raise e))
    (navigate_purchase_flow timeout_ms).
Proof. raises_auto; reflexivity. Qed.

Lemma selectable_real (disabled : bool) (v : pystr) :
  selectable disabled (Some v) = true ->
  v <> py "" /\ v <> py "0" /\ v <> py "-1".
Proof.
  unfold selectable; intros H.
  apply andb_true_iff in H as [_ H]; apply andb_true_iff in H as [_ H].
  apply negb_true_iff in H; simpl in H.
  repeat (apply orb_false_iff in H; destruct H as [?H H]).
  repeat split; intros ->;
    match goal with
    | Hx : str_eqb ?a ?a = false |- _ =>
        assert (str_eqb a a = true) by (now apply str_eqb_eq); congruence
    end.
Qed.

(** X18.  The advance loop never picks a placeholder: every [select_option]
    it makes is by value, and the value is not empty, not "0" and not "-1". *)
Theorem navigate_chooses_real_options (timeout_ms : Z) :
  emits chooses_real_option (navigate_purchase_flow timeout_ms).
Proof.
  unfold navigate_purchase_flow.
  apply emits_bind; [|intros; apply emits_ret].
  apply emits_for_each; intros _.
  unfold advance_once.
  apply emits_bind; [|intros; emits_auto; exact I].
  unfold choose_first_options.
  apply emits_try; [|apply emits_ret].
  apply emits_bind; [emits_auto; exact I|intros select_boxes].
  apply emits_bind; [|intros; apply emits_ret].
  apply emits_for_each; intros select_box.
  apply emits_bind; [emits_auto; exact I|intros is_disabled].
  apply emits_bind; [|intros; apply emits_ret].
  destruct (negb is_disabled); [|apply emits_ret].
  apply emits_bind; [emits_auto; exact I|intros options].
  apply emits_bind; [|intros; apply emits_ret].
  apply emits_for_each; intros opt.
  apply emits_bind; [emits_auto; exact I|intros [disabled value]].
  simpl fst; simpl snd.
  destruct (selectable disabled value) eqn:Hs; [|apply emits_ret].
  destruct value as [value|]; [|apply emits_ret].
  apply emits_bind; [|intros; apply emits_ret].
  apply emits_call; intros r; simpl.
  split; [reflexivity|exact (selectable_real _ _ Hs)].
Qed.

End AdvanceLoopMore.

Lemma navigate_purchase_flow_raises_at_witness :
  exists pre,
    snd (navigate_purchase_flow (U := ascii_only)
           (D := picky is_pause (py "AB12")) 15000 tt)
    = pre ++ [Ev (WaitForTimeout 400) (Raise TimeoutError)].
Proof.
  destruct (navigate_purchase_flow_raises_at (U := ascii_only)
              (D := picky is_pause (py "AB12")) 15000 tt
              (e := TimeoutError) (w1 := tt)
              (evs := snd (navigate_purchase_flow (U := ascii_only)
                             (D := picky is_pause (py "AB12")) 15000 tt))
              eq_refl)
    as (pre & ev & E & ->).
  exists pre; exact E.
Defined.

(** ** Clicks of the advance loop *)

Section AdvanceClicks.
Context {U : Unicode} {L : Libs} {D : Driver}.

(** A first part that makes at most one call of kind [p], and none when its
    value is accepted by [go]; what follows may make one only then. *)
Lemma at_most_bind_gate (p : event -> bool) A B (go : A -> bool)
    (m : M A) (k : A -> M B) :
  (forall w,
      (tally p (snd (m w)) <= 1)%nat
      /\ (forall a, fst (fst (m w)) = Ok a -> go a = true ->
                    tally p (snd (m w)) = 0%nat)) ->
  (forall a, go a = true -> at_most p 1 (k a)) ->
  (forall a, go a = false -> at_most p 0 (k a)) ->
  at_most p 1 (bind m k).
Proof.
  intros Hm Hgo Hstop w.
  destruct (Hm w) as [Hle Hzero].
  destruct (bind_cases m k w) as [(e & w1 & e1 & Em & ->)
                                 |(a & w1 & e1 & r & w2 & e2 & Em & Ek & ->)];
    rewrite Em in *; simpl in *; [exact Hle|].
  rewrite tally_app; destruct (go a) eqn:Ha.
  - rewrite (Hzero a eq_refl Ha); specialize (Hgo a Ha w1).
    rewrite Ek in Hgo; simpl in Hgo; lia.
  - specialize (Hstop a Ha w1); rewrite Ek in Hstop; simpl in Hstop; lia.
Qed.

Lemma try_action_label_once (label : pystr) :
  once_unless_next clicked
    (clicked <- click_if_visible label 800 ;;
     if clicked then call (WaitForTimeout 400) ;; ret Break else ret Next).
Proof.
  intros w; unfold click_if_visible, try_catch, bind, call, ret, tally.
  run_calls; split; auto; discriminate.
Qed.

Lemma for_each_never_returns X (body : X -> M flow) (xs : list X) :
  (forall x w, fst (fst (body x w)) <> Ok Return) ->
  forall w, fst (fst (for_each xs body w)) <> Ok Return.
Proof.
  intros H; induction xs as [|x r IH]; intros w; simpl; [discriminate|].
  match goal with |- context [bind ?m ?k w] =>
    destruct (bind_cases m k w)
      as [(e & w1 & e1 & Em & ->)|(f & w1 & e1 & r' & w2 & e2 & Em & Ek & ->)]
  end; simpl; [discriminate|].
  specialize (H x w); rewrite Em in H; simpl in H.
  destruct f; [|inversion Ek; discriminate|congruence].
  specialize (IH w1); now rewrite Ek in IH.
Qed.

Lemma try_action_label_goes_on (label : pystr) w :
  fst (fst ((clicked <- click_if_visible label 800 ;;
             if clicked then call (WaitForTimeout 400) ;; ret Break
             else ret Next) w)) <> Ok Return.
Proof.
  unfold click_if_visible, try_catch, bind, call, ret.
  run_calls; discriminate.
Qed.

Lemma try_actions_clicks_once : at_most clicked 1 try_actions.
Proof.
  unfold try_actions.
  apply at_most_bind_gate with (go := fun f => negb (is_break f)).
  - intros w.
    pose proof (for_each_never_returns _ action_labels
                  try_action_label_goes_on w) as Hnr.
    destruct (once_for_each (p := clicked)
                (fun label =>
                   clicked <- click_if_visible label 800 ;;
                   if clicked then call (WaitForTimeout 400) ;; ret Break
                   else ret Next)
                action_labels try_action_label_once w) as [Hle Hnext].
    split; [exact Hle|].
    intros [| |] E Hf; try discriminate; [exact (Hnext E)|destruct (Hnr E)].
  - intros f Hf; assert (Hp : match f with Break => true | _ => false end = false)
      by (destruct f; auto; discriminate).
    cbv zeta; rewrite Hp; simpl negb; cbv iota.
    apply at_most_bind_gate with (go := negb).
    + intros w; unfold try_catch, bind, call, ret, tally.
      run_calls; split; auto; intros [|] E; inversion E; discriminate.
    + intros [|] Hb; try discriminate; simpl negb; cbv iota.
      apply at_most_try with (a := 1%nat) (b := 0%nat);
        [|apply at_most_silent, emits_ret].
      apply at_most_bind with (a := 0%nat) (b := 1%nat);
        [apply at_most_silent; emits_auto; reflexivity|intros buttons].
      apply at_most_bind with (a := 1%nat) (b := 0%nat);
        [|intros g; apply at_most_silent, emits_ret].
      intros w; apply once_for_each; clear w; intros btn.
      apply once_bind_silent; [emits_auto; reflexivity|intros text].
      match goal with |- once_unless_next _ (if ?c then _ else _) =>
        destruct c end; [|apply once_ret].
      intros w; unfold try_catch, bind, call, ret, tally.
      run_calls; split; auto; discriminate.
    + intros [|] Hb; try discriminate; simpl negb; cbv iota.
      apply at_most_silent, emits_ret.
  - intros [| |] Hf; try discriminate.
    intros w; unfold bind, ret, tally; simpl; lia.
Qed.

(** X19.  In the advance loop at most one click goes through per pass (an
    action label, else the link, else one button), so [navigate_purchase_flow]
    clicks at most 20 times. *)
Theorem navigate_clicks_once_per_pass (timeout_ms : Z) :
  at_most clicked 1 advance_once
  /\ at_most clicked 20 (navigate_purchase_flow timeout_ms).
Proof.
  assert (Hpass : at_most clicked 1 advance_once).
  { unfold advance_once.
    apply at_most_bind with (a := 0%nat) (b := 1%nat);
      [apply at_most_silent; emits_auto; reflexivity|intros _].
    apply at_most_bind with (a := 1%nat) (b := 0%nat);
      [apply try_actions_clicks_once|].
    intros progressed; apply at_most_silent; emits_auto; reflexivity. }
  split; [exact Hpass|].
  unfold navigate_purchase_flow.
  apply at_most_bind with (a := 20%nat) (b := 0%nat).
  - apply (at_most_for_each (seq 0 20) (fun _ => advance_once) (a := 1)).
    intros _; exact Hpass.
  - intros f; apply at_most_silent, emits_ret.
Qed.

End AdvanceClicks.

(** ** The session *)

Section SessionProperties.
Context {U : Unicode} {L : Libs} {S : Session}.

Lemma sbind_cases A B (m : SM A) (k : A -> SM B) w :
  (exists e w1 e1, m w = (Raise e, w1, e1) /\ sbind m k w = (Raise e, w1, e1))
  \/ (exists a w1 e1 r w2 e2,
        m w = (Ok a, w1, e1) /\ k a w1 = (r, w2, e2)
        /\ sbind m k w = (r, w2, e1 ++ e2)).
Proof.
  unfold sbind; destruct (m w) as [[[a|e] w1] e1] eqn:Em.
  - right; destruct (k a w1) as [[r w2] e2] eqn:Ek.
    exists a, w1, e1, r, w2, e2; auto.
  - left; exists e, w1, e1; auto.
Qed.

Variable p : session_event -> bool.

Lemma silent_sret A (a : A) : session_silent p (sret a).
Proof. intros w; reflexivity. Qed.

Lemma silent_scall A (c : sessionE A) :
  (forall r, p (SEv c r) = false) -> session_silent p (scall c).
Proof.
  intros H w; unfold scall; destruct (session_exec c w) as [r w1]; simpl.
  now rewrite H.
Qed.

Lemma silent_sbind A B (m : SM A) (k : A -> SM B) :
  session_silent p m -> (forall a, session_silent p (k a)) ->
  session_silent p (sbind m k).
Proof.
  intros Hm Hk w; specialize (Hm w).
  destruct (sbind_cases m k w) as [(e & w1 & e1 & Em & ->)
                                  |(a & w1 & e1 & r & w2 & e2 & Em & Ek & ->)];
    rewrite Em in Hm; simpl in *; [exact Hm|].
  specialize (Hk a w1); rewrite Ek in Hk; simpl in Hk.
  now rewrite existsb_app, Hm, Hk.
Qed.

Lemma silent_stry A (m h : SM A) :
  session_silent p m -> session_silent p h -> session_silent p (stry m h).
Proof.
  intros Hm Hh w; specialize (Hm w); unfold stry.
  destruct (m w) as [[[a|e] w1] e1]; simpl in *; [exact Hm|].
  specialize (Hh w1); destruct (h w1) as [[r w2] e2]; simpl in *.
  now rewrite existsb_app, Hm, Hh.
Qed.

Lemma silent_step A (m : M (D := page_of_session) A) :
  emits (fun e => p (on_page e) = false) m -> session_silent p (step m).
Proof.
  intros H w; specialize (H w); unfold step.
  destruct (m w) as [[r w1] evs]; simpl in *.
  induction H as [|e evs He _ IH]; simpl; [reflexivity|].
  now rewrite He.
Qed.

End SessionProperties.

(** Breaks a goal [session_silent p m] down along the structure of [m]. *)
Ltac silent_step_tac :=
  lazymatch goal with
  | |- session_silent _ (sbind _ _) => apply silent_sbind; [|intros]
  | |- session_silent _ (stry _ _) => apply silent_stry
  | |- session_silent _ (sret _) => apply silent_sret
  | |- session_silent _ (scall _) => apply silent_scall; intros
  | |- session_silent _ (step _) => apply silent_step; emits_auto
  | |- session_silent _ (if ?b then _ else _) => destruct b
  end.

Section RunProperties.
Context {U : Unicode} {L : Libs} {S : Session}.

Lemma closed_iff_returned_sbind A (m : SM A) (k : A -> SM unit) :
  session_silent browser_closed m ->
  (forall a w, closed_iff_returned (k a w)) ->
  forall w, closed_iff_returned (sbind m k w).
Proof.
  intros Hm Hk w; specialize (Hm w); unfold closed_iff_returned.
  destruct (sbind_cases m k w) as [(e & w1 & e1 & Em & ->)
                                  |(a & w1 & e1 & r & w2 & e2 & Em & Ek & ->)];
    rewrite Em in Hm; simpl in *.
  - rewrite Hm; split; discriminate.
  - specialize (Hk a w1); unfold closed_iff_returned in Hk.
    rewrite Ek in Hk; simpl in Hk.
    now rewrite existsb_app, Hm.
Qed.

(** X20.  [run] has no [finally]: the browser is closed exactly when [run]
    returns.  If any step raises (the first navigation, the operator prompt,
    a pause, the price click), [run] raises and [browser.close()] has not
    gone through.  In headless mode the pause of ten minutes is never made. *)
Theorem run_closes_iff_returns (headless : bool) (slowmo seconds timeout_ms : Z)
    (price : pystr) (quantity : Z) (w : session) :
  closed_iff_returned (run headless slowmo seconds timeout_ms price quantity w)
  /\ existsb is_long_pause
       (snd (run true slowmo seconds timeout_ms price quantity w)) = false.
Proof.
  split.
  - unfold run.
    do 13 (apply closed_iff_returned_sbind;
           [repeat silent_step_tac; reflexivity|intros ? ?]).
    unfold closed_iff_returned, sbind, scall.
    destruct (session_exec ContextClose _) as [[[]|?] wc]; simpl;
      [|split; discriminate].
    destruct (session_exec BrowserClose wc) as [[[]|?] ?]; simpl;
      split; auto; discriminate.
  - revert w; change (session_silent is_long_pause
                        (run true slowmo seconds timeout_ms price quantity)).
    unfold run; simpl negb; cbv iota.
    repeat silent_step_tac; reflexivity.
Qed.

End RunProperties.


Lemma run_closes_iff_returns_witness :
  existsb browser_closed
    (snd (run (U := ascii_only) (S := easy_session refuses_nothing)
            true 0 3 15000 (py "2800") 2 tt)) = true
  /\ fst (fst (run (U := ascii_only) (S := easy_session is_pause)
                 false 0 3 15000 (py "2800") 2 tt)) <> Ok tt.
Proof.
  split.
  - apply (proj1 (proj1 (run_closes_iff_returns (U := ascii_only)
                           (S := easy_session refuses_nothing)
                           true 0 3 15000 (py "2800") 2 tt))).
    vm_compute; reflexivity.
  - intros H.
    apply (proj1 (proj1 (run_closes_iff_returns (U := ascii_only)
                           (S := easy_session is_pause)
                           false 0 3 15000 (py "2800") 2 tt))) in H.
    vm_compute in H; discriminate.
Defined.

(** X23.  One call of [click_if_visible] never clicks twice: at most one of
    its two clicks goes through, the click by text being tried only when the
    button could not be waited for or clicked. *)
Theorem click_if_visible_clicks_once {L : Libs} {D : Driver}
    (text : pystr) (timeout_ms : Z) :
  at_most clicked 1 (click_if_visible text timeout_ms)
  /\ at_most is_click 2 (click_if_visible text timeout_ms).
Proof.
  split; intros w; unfold click_if_visible, try_catch, bind, call, ret, tally;
    run_calls; auto.
Qed.
